(** * Civic.AI dashboard: transcript classification, report formatting and
    Telegram dispatch

    A shallow embedding of the decision-making functions of
    [telynxstuff.py]: [validate_telegram_token], [validate_chat_id],
    [extract_civic_info], [format_telegram_message] and
    [send_to_telegram], together with the properties the specification
    states about them. *)

From Stdlib Require Import NArith ZArith Bool String Ascii DecimalString.
From stdpp Require Import gmap list.

Local Open Scope N_scope.

(** ** Python text

    A Python [str] is a sequence of Unicode code points: a [list N].
    [len] is [length], [s[:n]] is [take n s] and [+] is [++]. *)

Module PyStr.

(** An ASCII literal of the source, as a list of code points. *)
Fixpoint str (s : string) : list N :=
  match s with
  | EmptyString => []
  | String a s' => N_of_ascii a :: str s'
  end.
Arguments str s%_string : simpl never.

Definition in_range (lo hi c : N) : bool := (lo <=? c) && (c <=? hi).

Definition is_upper_az (c : N) : bool := in_range 65 90 c.
Definition is_lower_az (c : N) : bool := in_range 97 122 c.
Definition is_letter (c : N) : bool := is_upper_az c || is_lower_az c.

(** [\d] of [re] on the Latin-1 block, where the only decimal digits are
    [0]..[9]; the digits of other scripts are not covered. *)
Definition is_decimal (c : N) : bool := in_range 48 57 c.

(** The characters [str.isdigit] accepts on the Latin-1 block: the decimal
    digits and the superscripts U+00B2, U+00B3 and U+00B9; the digits of
    other scripts are not covered. *)
Definition is_digit_char (c : N) : bool :=
  is_decimal c || (c =? 178) || (c =? 179) || (c =? 185).

(** Unicode white space, the set shared by [\s] of [re], [str.isspace] and
    [str.strip]. *)
Definition is_space (c : N) : bool :=
  in_range 9 13 c || in_range 28 32 c || (c =? 133) || (c =? 160)
  || (c =? 5760) || in_range 8192 8202 c || (c =? 8232) || (c =? 8233)
  || (c =? 8239) || (c =? 8287) || (c =? 12288).

(** [str.lower], character by character.  The Latin-1 block follows the
    Unicode case mapping; beyond it only the two code points whose lower
    case contains an ASCII letter are mapped (U+0130 and U+212A) and every
    other code point is left as it is, which keeps every occurrence of an
    ASCII word in the lowered text where Python has it. *)
Definition lower_cp (c : N) : list N :=
  if is_upper_az c then [c + 32]
  else if in_range 192 222 c && negb (c =? 215) then [c + 32]
  else if c =? 304 then [105; 775]
  else if c =? 8490 then [107]
  else [c].

Definition py_lower (s : list N) : list N := flat_map lower_cp s.

(** [s.startswith(p)] *)
Fixpoint py_startswith (p s : list N) : bool :=
  match p, s with
  | [], _ => true
  | _ :: _, [] => false
  | x :: p', y :: s' => (x =? y) && py_startswith p' s'
  end.

(** [k in s]: [k] occurs in [s] as a contiguous run. *)
Fixpoint py_in (k s : list N) : bool :=
  py_startswith k s
  || match s with
     | [] => false
     | _ :: s' => py_in k s'
     end.

(** [s.isdigit()]: non-empty and made of digit characters only. *)
Definition py_isdigit (s : list N) : bool :=
  negb (Nat.eqb (length s) 0) && forallb is_digit_char s.

Fixpoint lstrip (s : list N) : list N :=
  match s with
  | [] => []
  | c :: s' => if is_space c then lstrip s' else s
  end.

Definition rstrip (s : list N) : list N := rev (lstrip (rev s)).

(** [s.strip()] *)
Definition py_strip (s : list N) : list N := rstrip (lstrip s).

Definition upper_az (c : N) : N := if is_lower_az c then c - 32 else c.
Definition lower_az (c : N) : N := if is_upper_az c then c + 32 else c.

(** [s.title()]: a letter that follows a cased character is lowered, any
    other letter is raised.  The source calls it on text made of ASCII
    letters and white space (a captured location, a category or priority
    label), where the ASCII letters are the cased characters. *)
Fixpoint title_from (prev_cased : bool) (s : list N) : list N :=
  match s with
  | [] => []
  | c :: s' =>
      (if prev_cased then lower_az c else upper_az c)
        :: title_from (is_letter c) s'
  end.

Definition py_title (s : list N) : list N := title_from false s.

(** [s.replace(old, new)] for a one-character [old]. *)
Definition py_replace (old : N) (new : list N) (s : list N) : list N :=
  flat_map (fun c => if c =? old then new else [c]) s.

(** [s.endswith(x)] *)
Definition py_endswith (x s : list N) : bool :=
  py_startswith (rev x) (rev s).

End PyStr.
Export PyStr.

(** ** Regular expressions

    The patterns of the source are sequences of one-character sets, each
    taken once or one-or-more times (greedy [+]), between an optional [^]
    and [$], with at most one capture group.  [matcher] is the backtracking
    matcher of [re] on such patterns. *)

Module Re.

Inductive item : Type :=
  | Caret                                   (* ^ *)
  | Dollar                                  (* $ *)
  | Once (p : N -> bool) (captured : bool)  (* one character of a set *)
  | Plus (p : N -> bool) (captured : bool). (* set+, greedy *)

(** The outcome of a successful match: the text of group 1 and the number
    of characters consumed. *)
Definition found : Type := list N * nat.

Definition consume (captured : bool) (c : N) (r : found) : found :=
  ((if captured then c :: r.1 else r.1), S r.2).

(** [matcher items at_start s] matches [items] at the head of [s];
    [at_start] tells whether that head is the beginning of the subject.
    [$] holds at the end of the subject and before a final line feed. *)
Fixpoint matcher (items : list item) (at_start : bool) (s : list N)
  : option found :=
  match items with
  | [] => Some ([], O)
  | Caret :: rest => if at_start then matcher rest at_start s else None
  | Dollar :: rest =>
      match s with
      | [] => matcher rest at_start s
      | [10] => matcher rest at_start s
      | _ => None
      end
  | Once p cap :: rest =>
      match s with
      | c :: s' =>
          if p c then consume cap c <$> matcher rest false s' else None
      | [] => None
      end
  | Plus p cap :: rest =>
      let fix more (s : list N) : option found :=
        match s with
        | c :: s' =>
            if p c then
              match more s' with
              | Some r => Some (consume cap c r)
              | None => matcher rest false s
              end
            else matcher rest false s
        | [] => matcher rest false s
        end in
      match s with
      | c :: s' => if p c then consume cap c <$> more s' else None
      | [] => None
      end
  end.

(** The greedy loop of [Plus], with the rest of the pattern as [k]. *)
Definition more_of (p : N -> bool) (cap : bool) (k : list N -> option found)
  : list N -> option found :=
  fix more (s : list N) : option found :=
    match s with
    | c :: s' =>
        if p c then
          match more s' with
          | Some r => Some (consume cap c r)
          | None => k s
          end
        else k s
    | [] => k s
    end.

(** [re.match(pattern, s)] as a truth value. *)
Definition re_match (items : list item) (s : list N) : bool :=
  bool_decide (is_Some (matcher items true s)).

(** [re.findall(pattern, s)] for a pattern with one group: the group text
    of every match, scanning from the left; after a match the scan resumes
    where the match ended.  [skip] counts the characters of the last match
    still to step over.  (Every pattern of the source consumes at least
    three characters, so no match is empty.) *)
Fixpoint findall_from (items : list item) (at_start : bool) (skip : nat)
    (s : list N) : list (list N) :=
  match skip with
  | S k =>
      match s with
      | [] => []
      | _ :: s' => findall_from items false k s'
      end
  | O =>
      match matcher items at_start s with
      | Some (g, n) =>
          g :: match s with
               | [] => []
               | _ :: s' => findall_from items false (Nat.pred n) s'
               end
      | None =>
          match s with
          | [] => []
          | _ :: s' => findall_from items false O s'
          end
      end
  end.

Definition findall (items : list item) (s : list N) : list (list N) :=
  findall_from items true O s.

(** A literal word followed by [\s+([A-Za-z\s]+)]. *)
Definition literal (w : list N) : list item :=
  map (fun c => Once (N.eqb c) false) w.

Definition letter_or_space (c : N) : bool := is_letter c || is_space c.

Definition word_then_phrase (w : string) : list item :=
  literal (str w) ++ [Plus is_space false; Plus letter_or_space true].

End Re.

Import Re.

(** ** Security validation functions *)

(** The pattern [^\d+:[A-Za-z0-9_-]+$]. *)
Definition token_char (c : N) : bool :=
  is_letter c || is_decimal c || (c =? 95) || (c =? 45).

Definition token_pattern : list item :=
  [Caret; Plus is_decimal false; Once (N.eqb 58) false;
   Plus token_char false; Dollar].

Definition validate_telegram_token (token : list N) : bool :=
  match token with
  | [] => false
  | _ => re_match token_pattern token
  end.

Definition validate_chat_id (chat_id : list N) : bool :=
  match chat_id with
  | [] => false
  | _ => py_isdigit chat_id || py_startswith (str "-") chat_id
  end.

(** ** AI call processing: [extract_civic_info] *)

(** The two keyword tables, in the order the dictionaries are written:
    a Python dictionary is iterated in insertion order. *)
Definition issue_keywords : list (list N * list (list N)) :=
  [ (str "infrastructure",
      [str "road"; str "bridge"; str "water"; str "electricity";
       str "power"; str "drainage"]);
    (str "security",
      [str "crime"; str "theft"; str "violence"; str "unsafe";
       str "robbery"; str "security"]);
    (str "health",
      [str "hospital"; str "clinic"; str "medical"; str "health";
       str "disease"; str "sanitation"]);
    (str "education",
      [str "school"; str "teacher"; str "education"; str "student";
       str "classroom"]);
    (str "waste",
      [str "garbage"; str "waste"; str "dump"; str "refuse";
       str "sanitation"; str "dirty"]);
    (str "other", []) ].

Definition priority_keywords : list (list N * list (list N)) :=
  [ (str "urgent",
      [str "emergency"; str "urgent"; str "immediate"; str "critical";
       str "danger"]);
    (str "high",
      [str "serious"; str "important"; str "major"; str "significant"]);
    (str "medium", [str "moderate"; str "concern"; str "issue"]);
    (str "low", [str "minor"; str "small"; str "slight"]) ].

(** [any(keyword in text for keyword in keywords)] *)
Definition any_keyword_in (keywords : list (list N)) (text : list N) : bool :=
  existsb (fun keyword => py_in keyword text) keywords.

(** The loop [for label, keywords in table.items(): if any(...): result =
    label; break], started from [result = default]. *)
Fixpoint first_match (table : list (list N * list (list N)))
    (text : list N) (default : list N) : list N :=
  match table with
  | [] => default
  | (label, keywords) :: rest =>
      if any_keyword_in keywords text then label
      else first_match rest text default
  end.

Definition location_patterns : list (list item) :=
  [ word_then_phrase "in"; word_then_phrase "at";
    word_then_phrase "from"; word_then_phrase "area" ].

(** The loop over [location_patterns]: the first pattern with a match
    decides. *)
Fixpoint first_location (patterns : list (list item)) (transcript : list N)
    (default : list N) : list N :=
  match patterns with
  | [] => default
  | pattern :: rest =>
      match findall pattern transcript with
      | first :: _ => py_title (py_strip first)
      | [] => first_location rest transcript default
      end
  end.

Record civic_info : Type := CivicInfo {
  category : list N;
  priority : list N;
  location : list N;
  summary : list N;
  full_transcript : list N
}.

Definition extract_civic_info (transcript : list N) : civic_info :=
  let transcript_lower := py_lower transcript in
  let issue_category := first_match issue_keywords transcript_lower (str "other") in
  let priority := first_match priority_keywords transcript_lower (str "medium") in
  let location :=
    first_location location_patterns transcript (str "Location not specified") in
  {| category := issue_category;
     priority := priority;
     location := location;
     summary := if (200 <? length transcript)%nat
                then take 200 transcript ++ str "..."
                else transcript;
     full_transcript := transcript |}.

(** ** [format_telegram_message] *)

(** The values a metadata dictionary holds, and [str(value)]. *)
Inductive pyval : Type :=
  | PyNone
  | PyInt (z : Z)
  | PyStr (s : list N).

Definition py_str (v : pyval) : list N :=
  match v with
  | PyNone => str "None"
  | PyInt z => str (NilZero.string_of_int (Z.to_int z))
  | PyStr s => s
  end.

(** [d.get(key, default)] *)
Definition dict_get {V} (d : gmap (list N) V) (key : list N) (default : V) : V :=
  match d !! key with
  | Some v => v
  | None => default
  end.

(** The truth value of [call_metadata]: [None] and the empty dictionary
    are false. *)
Definition truthy (call_metadata : option (gmap (list N) pyval)) : bool :=
  match call_metadata with
  | None => false
  | Some d => negb (bool_decide (d = ∅))
  end.

Definition memo : list N := [0x1F4DD].
Definition yellow : list N := [0x1F7E1].

Definition category_emojis : gmap (list N) (list N) :=
  list_to_map
    [ (str "infrastructure", [0x1F3D7; 0xFE0F]);
      (str "security", [0x1F6A8]);
      (str "health", [0x1F3E5]);
      (str "education", [0x1F393]);
      (str "waste", [0x1F5D1; 0xFE0F]);
      (str "other", memo) ].

Definition priority_emojis : gmap (list N) (list N) :=
  list_to_map
    [ (str "urgent", [0x1F534]);
      (str "high", [0x1F7E0]);
      (str "medium", yellow);
      (str "low", [0x1F7E2]) ].

Definition nl : list N := [10].

(** The two expressions of the template that depend on [call_metadata]. *)
Definition duration_field (call_metadata : option (gmap (list N) pyval)) : list N :=
  match call_metadata with
  | Some d =>
      if truthy call_metadata then
        [0x1F4F1] ++ str " **Call Duration:** "
          ++ py_str (dict_get d (str "duration") (PyStr (str "N/A")))
          ++ str " seconds"
      else []
  | None => []
  end.

Definition caller_field (call_metadata : option (gmap (list N) pyval)) : list N :=
  match call_metadata with
  | Some d =>
      if truthy call_metadata then
        [0x1F4DE] ++ str " **Caller ID:** "
          ++ py_str (dict_get d (str "caller_id") (PyStr (str "N/A")))
      else []
  | None => []
  end.

(** [timestamp] is what [datetime.now().strftime("%Y-%m-%d %H:%M:%S")]
    evaluates to when the message is built: the clock is an input.

    The template is written in three parts: the lines down to the blank
    line after the summary, the two metadata lines, and the lines from the
    blank line before the rule to the report identifier. *)
Definition report_head (info : civic_info) (timestamp : list N) : list N :=
  [0x1F3DB; 0xFE0F] ++ str " **CIVIC VOICE REPORT**" ++ nl
  ++ nl
  ++ dict_get category_emojis (category info) memo
  ++ str " **Category:** " ++ py_title (category info) ++ nl
  ++ dict_get priority_emojis (priority info) yellow
  ++ str " **Priority:** " ++ py_title (priority info) ++ nl
  ++ [0x1F4CD] ++ str " **Location:** " ++ location info ++ nl
  ++ [0x1F552] ++ str " **Received:** " ++ timestamp ++ nl
  ++ nl
  ++ [0x1F4DE] ++ str " **Report Summary:**" ++ nl
  ++ summary info ++ nl
  ++ nl.

Definition report_tail (timestamp : list N) : list N :=
  nl
  ++ str "---" ++ nl
  ++ str "*Report ID: CVC-"
  ++ py_replace 32 (str "-") (py_replace 58 [] (py_replace 45 [] timestamp))
  ++ str "*".

Definition format_telegram_message (info : civic_info)
    (call_metadata : option (gmap (list N) pyval)) (timestamp : list N) : list N :=
  py_strip
    (nl
     ++ (report_head info timestamp
         ++ duration_field call_metadata ++ nl
         ++ caller_field call_metadata ++ nl
         ++ report_tail timestamp)
     ++ nl).

(** ** [send_to_telegram]

    The function shows messages with [st.error] and posts one request with
    [requests.post], which answers or raises.  Both are effects on a
    [world]: the messages shown so far and the requests issued so far. *)

Module Eff.

Record request : Type := Request {
  url : list N;
  json_chat_id : list N;
  json_text : list N;
  json_parse_mode : list N;
  timeout : N
}.

Record response : Type := Response {
  status_code : Z;
  text : list N
}.

(** What [requests.post] may raise: [requests.exceptions.Timeout], or any
    other [Exception] with its [str(e)]. *)
Inductive exn : Type :=
  | Timeout
  | OtherException (detail : list N).

Inductive outcome (A : Type) : Type :=
  | Return (a : A)
  | Raise (e : exn).
Arguments Return {A} a.
Arguments Raise {A} e.

Record world : Type := World {
  shown : list (list N);
  posted : list request
}.

Definition M (A : Type) : Type := world -> outcome A * world.

Definition ret {A} (a : A) : M A := fun w => (Return a, w).

Definition bind {A B} (m : M A) (k : A -> M B) : M B :=
  fun w =>
    match m w with
    | (Return a, w') => k a w'
    | (Raise e, w') => (Raise e, w')
    end.

(** [try: body except ...: handler] with handlers for every exception. *)
Definition try_except {A} (body : M A) (handler : exn -> M A) : M A :=
  fun w =>
    match body w with
    | (Return a, w') => (Return a, w')
    | (Raise e, w') => handler e w'
    end.

(** [st.error(message)] *)
Definition st_error (message : list N) : M unit :=
  fun w => (Return tt, {| shown := shown w ++ [message]; posted := posted w |}).

(** [requests.post(...)]: the request is issued and the network [net]
    decides what comes back. *)
Definition requests_post (net : request -> outcome response) (r : request)
  : M response :=
  fun w => (net r, {| shown := shown w; posted := posted w ++ [r] |}).

End Eff.
Import Eff.

Notation "'let*' x ':=' m 'in' k" := (bind m (fun x => k))
  (at level 10, x name, m at level 100, k at level 200).

Definition send_to_telegram (net : request -> outcome response)
    (message token chat_id : list N) : M bool :=
  if negb (validate_telegram_token token) then
    let* _ := st_error (str "Invalid Telegram bot token format") in
    ret false
  else if negb (validate_chat_id chat_id) then
    let* _ := st_error (str "Invalid Telegram chat ID format") in
    ret false
  else
    let telegram_url :=
      str "https://api.telegram.org/bot" ++ token ++ str "/sendMessage" in
    let payload :=
      {| url := telegram_url; json_chat_id := chat_id; json_text := message;
         json_parse_mode := str "Markdown"; timeout := 10 |} in
    try_except
      (let* response := requests_post net payload in
       if (status_code response =? 200)%Z then ret true
       else
         let* _ := st_error (str "Telegram API Error: "
                             ++ py_str (PyInt (status_code response))
                             ++ str " - " ++ text response) in
         ret false)
      (fun e =>
         match e with
         | Timeout =>
             let* _ := st_error (str "Request timed out. Please try again.") in
             ret false
         | OtherException detail =>
             let* _ := st_error (str "Telegram Error: " ++ detail) in
             ret false
         end).

(** ** The vocabulary of the specification

    The notions the specification states its properties with, next to the
    functions of the source. *)

(** An entry of a keyword table none of whose keywords occurs in [text]. *)
Definition no_match (text : list N) (entry : list N * list (list N)) : Prop :=
  any_keyword_in entry.2 text = false.

(** The lowered transcript contains one of [keywords]. *)
Definition mentions (keywords : list (list N)) (transcript : list N) : Prop :=
  exists k, k ∈ keywords /\ exists pre post, py_lower transcript = pre ++ k ++ post.

(** The token format in the words of the specification: digits, a colon,
    and one or more letters, digits, underscores or hyphens. *)
Definition spec_token_format (token : list N) : Prop :=
  exists digits body,
    token = digits ++ str ":" ++ body
    /\ digits <> [] /\ Forall (fun c => is_decimal c = true) digits
    /\ body <> [] /\ Forall (fun c => token_char c = true) body.

(** The metadata line texts the specification names. *)
Definition duration_line (value : list N) : list N :=
  [0x1F4F1] ++ str " **Call Duration:** " ++ value ++ str " seconds".

Definition caller_line (value : list N) : list N :=
  [0x1F4DE] ++ str " **Caller ID:** " ++ value.

(** The identifier the code derives from the timestamp, character by
    character: [-] and [:] are dropped and a space becomes [-]. *)
Definition identifier_char (c : N) : list N :=
  if (c =? 45) || (c =? 58) then []
  else if c =? 32 then [45]
  else [c].

(** The identifier of the claim: the timestamp without [-], [:] and
    space. *)
Definition without_separators (timestamp : list N) : list N :=
  filter (fun c => c <> 45 /\ c <> 58 /\ c <> 32) timestamp.

(** The tagged result of the specification, and the outcome each branch of
    the dispatcher stands for in its taxonomy: a failed validation is
    [InvalidCredential], a status other than 200 is [ProviderError], a
    timeout is [TimeoutError] and any other exception is
    [TransportError]. *)
Inductive dispatch_error : Type :=
  | InvalidCredential
  | ProviderError (status : Z) (body : list N)
  | TimeoutError
  | TransportError (details : list N).

Inductive dispatch_result : Type :=
  | Ok
  | Fail (e : dispatch_error).

Definition the_request (message token chat_id : list N) : request :=
  {| url := str "https://api.telegram.org/bot" ++ token ++ str "/sendMessage";
     json_chat_id := chat_id;
     json_text := message;
     json_parse_mode := str "Markdown";
     timeout := 10 |}.

Definition spec_dispatch (net : request -> outcome response)
    (message token chat_id : list N) : dispatch_result :=
  if negb (validate_telegram_token token && validate_chat_id chat_id)
  then Fail InvalidCredential
  else
    match net (the_request message token chat_id) with
    | Return r =>
        if (status_code r =? 200)%Z then Ok
        else Fail (ProviderError (status_code r) (text r))
    | Raise Timeout => Fail TimeoutError
    | Raise (OtherException details) => Fail (TransportError details)
    end.

(** The message [st.error] shows for each kind of failure. *)
Definition describes (e : dispatch_error) (message : list N) : Prop :=
  match e with
  | InvalidCredential =>
      message = str "Invalid Telegram bot token format"
      \/ message = str "Invalid Telegram chat ID format"
  | ProviderError status body =>
      message = str "Telegram API Error: " ++ py_str (PyInt status)
                ++ str " - " ++ body
  | TimeoutError => message = str "Request timed out. Please try again."
  | TransportError details => message = str "Telegram Error: " ++ details
  end.

(** ** The call simulation tab

    The page shows widgets besides the [st.error] messages: the state of a
    run is the [world] of the dispatcher and the widgets rendered so far. *)

Module Page.

Inductive widget : Type :=
  | Spinner (text : list N)
  | Markdown (body : list N)
  | Subheader (text : list N)
  | Metric (label value : list N)
  | TextArea (label value : list N) (height : N)
  | Warning (text : list N)
  | Json (info : civic_info).

Record page : Type := MkPage {
  effects : world;
  rendered : list widget
}.

Definition render (widgets : list widget) (p : page) : page :=
  {| effects := effects p; rendered := rendered p ++ widgets |}.

End Page.
Import Page.

(** The sample reports offered by the select box, in the order written. *)
Definition sample_transcripts : list (list N * list N) :=
  [ (str "Infrastructure Issue",
      str "Hello, I'm calling to report a major pothole on Ahmadu Bello Way in Kaduna Central. The road is really bad and causing damage to vehicles. This needs urgent attention as it's a main road.");
    (str "Security Concern",
      str "There have been multiple theft cases in Barnawa area over the past week. The community is concerned about safety, especially at night. We need increased security patrol.");
    (str "Waste Management",
      str "The garbage dump near Government College is overflowing and creating health hazards. The smell is terrible and attracting pests. This is an urgent health concern for the community.");
    (str "Water Supply",
      str "Water supply has been cut off in Malali area for three days now. Residents are struggling and we need immediate intervention from the water board.") ].

(** The truth value of a string: false when empty. *)
Definition nonempty (s : list N) : bool :=
  match s with
  | [] => false
  | _ :: _ => true
  end.

Definition status_success : list N :=
  str "<div class=" ++ [34] ++ str "status-success" ++ [34] ++ str ">"
  ++ [0x2705] ++ str " Report processed and sent successfully!</div>".

Definition status_error : list N :=
  str "<div class=" ++ [34] ++ str "status-error" ++ [34] ++ str ">"
  ++ [0x274C] ++ str " Failed to send report. Check your configuration.</div>".

(** What the button [Process Call Transcript] runs, with the three inputs
    of the page: the transcript text area, the bot token and the channel
    identifier. *)
Definition process_call_transcript (net : request -> outcome response)
    (timestamp : list N)
    (transcript_input telegram_token telegram_channel : list N) (p : page)
  : outcome unit * page :=
  if nonempty transcript_input && nonempty telegram_token
     && nonempty telegram_channel
  then
    let p := render [Spinner (str "Processing civic report...")] p in
    let civic_info := extract_civic_info transcript_input in
    let telegram_message := format_telegram_message civic_info None timestamp in
    match send_to_telegram net telegram_message telegram_token telegram_channel
            (effects p) with
    | (Return success, w) =>
        let p := {| effects := w; rendered := rendered p |} in
        if success then
          (Return tt,
           render
             [ Markdown status_success;
               Subheader ([0x1F4CB] ++ str " Extracted Information:");
               Metric (str "Category") (py_title (category civic_info));
               Metric (str "Priority") (py_title (priority civic_info));
               Metric (str "Location") (location civic_info);
               TextArea (str "Generated Telegram Message:") telegram_message 200 ]
             p)
        else (Return tt, render [Markdown status_error] p)
    | (Raise e, w) => (Raise e, {| effects := w; rendered := rendered p |})
    end
  else
    (Return tt,
     render
       [Warning (str "Please fill in all required fields (transcript, bot token, channel ID)")]
       p).

(** What the button [Custom Report] runs on the text entered. *)
Definition custom_report (custom_transcript : list N) (p : page) : page :=
  if nonempty custom_transcript
  then render [Json (extract_civic_info custom_transcript)] p
  else p.

(** ** More vocabulary *)

(** A text with its ASCII letters capitalised. *)
Definition ascii_upper (s : list N) : list N := map upper_az s.

(** The sets of the captured items of a pattern stay within [Q]. *)
Definition captures_within (Q : N -> Prop) (items : list item) : Prop :=
  Forall (fun it =>
            match it with
            | Once p true | Plus p true => forall c, p c = true -> Q c
            | _ => True
            end) items.

(** The identifier expression of the message template. *)
Definition report_identifier (timestamp : list N) : list N :=
  py_replace 32 (str "-") (py_replace 58 [] (py_replace 45 [] timestamp)).

(** * Properties *)

(** ** Text *)

Section Text.

Implicit Types (s k p : list N) (c : N).

Lemma py_startswith_spec p s :
  py_startswith p s = true <-> exists post, s = p ++ post.
Proof.
  revert s. induction p as [|x p IH]; intros s; simpl.
  - split; eauto.
  - destruct s as [|y s].
    + split; [done | intros [? ?]; done].
    + rewrite andb_true_iff, N.eqb_eq, IH. split.
      * intros [-> [post ->]]. eauto.
      * intros [post H]. injection H as -> ->. eauto.
Qed.

Lemma py_in_unfold k s :
  py_in k s = py_startswith k s || match s with [] => false | _ :: s' => py_in k s' end.
Proof. destruct s; reflexivity. Qed.

(** [k in s] holds exactly when [s] splits around an occurrence of [k]. *)
Lemma py_in_spec k s :
  py_in k s = true <-> exists pre post, s = pre ++ k ++ post.
Proof.
  induction s as [|y s IH]; rewrite py_in_unfold, orb_true_iff, py_startswith_spec.
  - split.
    + intros [[post H] | ?]; [|done]. exists [], post. done.
    + intros (pre & post & H). left. destruct pre; [|done]. eauto.
  - rewrite IH. split.
    + intros [[post H] | (pre & post & ->)].
      * exists [], post. done.
      * exists (y :: pre), post. done.
    + intros (pre & post & H). destruct pre as [|z pre].
      * left. eauto.
      * right. injection H as -> ->. eauto.
Qed.

Lemma any_keyword_in_spec (keywords : list (list N)) s :
  any_keyword_in keywords s = true
  <-> exists k, k ∈ keywords /\ exists pre post, s = pre ++ k ++ post.
Proof.
  unfold any_keyword_in. rewrite existsb_exists. split.
  - intros (k & Hin & Hk). exists k. rewrite list_elem_of_In, <- py_in_spec. done.
  - intros (k & Hin & Hk). exists k. rewrite <- list_elem_of_In, py_in_spec. done.
Qed.

Lemma py_endswith_spec x s :
  py_endswith x s = true <-> exists pre, s = pre ++ x.
Proof.
  unfold py_endswith. rewrite py_startswith_spec. split.
  - intros [post H]. exists (rev post).
    rewrite <- (rev_involutive s), H, rev_app_distr, rev_involutive. done.
  - intros [pre ->]. exists (rev pre). apply rev_app_distr.
Qed.

Lemma rstrip_snoc_space s c :
  is_space c = true -> rstrip (s ++ [c]) = rstrip s.
Proof. intros H. unfold rstrip. rewrite rev_app_distr. simpl. rewrite H. done. Qed.

Lemma rstrip_snoc_other s c :
  is_space c = false -> rstrip (s ++ [c]) = s ++ [c].
Proof.
  intros H. unfold rstrip. rewrite rev_app_distr. simpl. rewrite H.
  simpl. rewrite rev_involutive. done.
Qed.

End Text.

(** ** What the matcher accepts *)

Section Matcher.

Lemma matcher_plus_unfold p cap rest b s :
  matcher (Plus p cap :: rest) b s
  = match s with
    | c :: s' =>
        if p c then consume cap c <$> more_of p cap (matcher rest false) s'
        else None
    | [] => None
    end.
Proof. destruct s; reflexivity. Qed.





End Matcher.

(** ** The first-match loop *)

Section FirstMatch.

Variables (text default : list N).

Lemma first_match_none table :
  Forall (no_match text) table -> first_match table text default = default.
Proof.
  induction 1 as [|[label kws] rest H _ IH]; simpl; [done|].
  unfold no_match in H. simpl in H. rewrite H. done.
Qed.

Lemma first_match_first before label kws after :
  Forall (no_match text) before ->
  any_keyword_in kws text = true ->
  first_match (before ++ (label, kws) :: after) text default = label.
Proof.
  intros Hb Hk. induction Hb as [|[l' k'] rest H _ IH]; simpl.
  - rewrite Hk. done.
  - unfold no_match in H. simpl in H. rewrite H. done.
Qed.

(** The loop either finds nothing, or stops at the first entry that
    matches. *)
Lemma first_match_cases table :
  (Forall (no_match text) table /\ first_match table text default = default)
  \/ exists before label kws after,
       table = before ++ (label, kws) :: after
       /\ Forall (no_match text) before
       /\ any_keyword_in kws text = true
       /\ first_match table text default = label.
Proof.
  induction table as [|[label kws] rest IH]; simpl.
  - left. split; [constructor | done].
  - destruct (any_keyword_in kws text) eqn:Hk.
    + right. exists [], label, kws, rest. split_and!; [done | constructor | done | done].
    + destruct IH as [[Hn Hd] | (before & l' & k' & after & -> & Hb & Hk' & Hf)].
      * left. split; [constructor; done | done].
      * right. exists ((label, kws) :: before), l', k', after.
        split_and!; [done | constructor; done | done | done].
Qed.

(** An entry that matches makes the loop stop at it or before it, at the
    earliest entry that matches. *)
Lemma first_match_earliest table i a ka :
  table !! i = Some (a, ka) ->
  any_keyword_in ka text = true ->
  exists i' c kc,
    (i' <= i)%nat
    /\ table !! i' = Some (c, kc)
    /\ any_keyword_in kc text = true
    /\ first_match table text default = c
    /\ forall i'' e, (i'' < i')%nat -> table !! i'' = Some e -> no_match text e.
Proof.
  revert i. induction table as [|[l k] rest IH]; intros i Hi Hk; [done|].
  simpl. destruct (any_keyword_in k text) eqn:Hl.
  - exists O, l, k. split_and!; [lia | done | done | done |]. intros; lia.
  - destruct i as [|i]; simpl in Hi.
    + injection Hi as -> ->. congruence.
    + destruct (IH i Hi Hk) as (i' & c & kc & Hle & Hlook & Hc & Hf & Hbefore).
      exists (S i'), c, kc. split_and!; [lia | done | done | done |].
      intros [|n] e Hn He; simpl in He.
      * injection He as <-. exact Hl.
      * apply (Hbefore n); [lia | done].
Qed.

Lemma first_match_at_index table i a ka :
  table !! i = Some (a, ka) ->
  any_keyword_in ka text = true ->
  (forall i' e, (i' < i)%nat -> table !! i' = Some e -> no_match text e) ->
  first_match table text default = a.
Proof.
  intros Hi Hk Hbefore.
  destruct (first_match_earliest table i a ka Hi Hk)
    as (i' & c & kc & Hle & Hlook & Hc & Hf & _).
  destruct (decide (i' = i)) as [-> | Hne].
  - rewrite Hi in Hlook. injection Hlook as <- <-. done.
  - assert (H : no_match text (c, kc)) by (apply (Hbefore i'); [lia | done]).
    unfold no_match in H. simpl in H. congruence.
Qed.

(** With distinct labels, a later entry never wins over an earlier one
    that matches. *)
Lemma first_match_not_later table i j a ka b kb :
  NoDup (map fst table) ->
  (i < j)%nat ->
  table !! i = Some (a, ka) ->
  table !! j = Some (b, kb) ->
  any_keyword_in ka text = true ->
  first_match table text default <> b.
Proof.
  intros Hnd Hlt Hi Hj Hk.
  destruct (first_match_earliest table i a ka Hi Hk)
    as (i' & c & kc & Hle & Hlook & _ & -> & _).
  intros ->.
  assert (i' = j); [|lia].
  apply (NoDup_lookup (map fst table) i' j b Hnd); rewrite list_lookup_fmap.
  - rewrite Hlook. done.
  - rewrite Hj. done.
Qed.

End FirstMatch.

(** ** The classifier *)

Lemma mentions_iff keywords transcript :
  mentions keywords transcript
  <-> any_keyword_in keywords (py_lower transcript) = true.
Proof. symmetry. apply any_keyword_in_spec. Qed.

Lemma not_mentions_iff keywords transcript :
  ~ mentions keywords transcript
  <-> any_keyword_in keywords (py_lower transcript) = false.
Proof. rewrite mentions_iff. apply not_true_iff_false. Qed.

Lemma issue_labels_distinct : NoDup (map fst issue_keywords).
Proof. apply (bool_decide_unpack (NoDup (map fst issue_keywords))). vm_compute. exact I. Qed.

Lemma priority_labels_distinct : NoDup (map fst priority_keywords).
Proof. apply (bool_decide_unpack (NoDup (map fst priority_keywords))). vm_compute. exact I. Qed.

(** What the first-match loop gives on a table with distinct labels, in
    the words of the specification. *)
Lemma first_match_contract table default transcript :
  NoDup (map fst table) ->
  let result := first_match table (py_lower transcript) default in
  (forall i a ka,
      table !! i = Some (a, ka) ->
      mentions ka transcript ->
      (forall i' c kc, (i' < i)%nat -> table !! i' = Some (c, kc) ->
                       ~ mentions kc transcript) ->
      result = a)
  /\ (forall i j a ka b kb,
        (i < j)%nat ->
        table !! i = Some (a, ka) ->
        table !! j = Some (b, kb) ->
        mentions ka transcript ->
        mentions kb transcript ->
        result <> b
        /\ exists i' c kc,
             (i' <= i)%nat /\ table !! i' = Some (c, kc)
             /\ mentions kc transcript /\ result = c)
  /\ ((forall c kc, (c, kc) ∈ table -> ~ mentions kc transcript) ->
      result = default).
Proof.
  intros Hnd result. subst result. split_and!.
  - intros i a ka Hi Hm Hbefore.
    apply (first_match_at_index _ _ _ i a ka Hi); [by apply mentions_iff|].
    intros i' [c kc] Hlt He. apply not_mentions_iff. eauto.
  - intros i j a ka b kb Hlt Hi Hj Ha _. apply mentions_iff in Ha. split.
    + eapply first_match_not_later; eauto.
    + destruct (first_match_earliest _ default _ i a ka Hi Ha)
        as (i' & c & kc & Hle & Hlook & Hc & Hf & _).
      exists i', c, kc. rewrite mentions_iff. done.
  - intros Hnone. apply first_match_none, Forall_forall.
    intros [c kc] Hin. apply not_mentions_iff. eauto.
Qed.

Lemma category_eq transcript :
  category (extract_civic_info transcript)
  = first_match issue_keywords (py_lower transcript) (str "other").
Proof. reflexivity. Qed.

Lemma priority_eq transcript :
  priority (extract_civic_info transcript)
  = first_match priority_keywords (py_lower transcript) (str "medium").
Proof. reflexivity. Qed.

(** C1. The categories are tested in the order infrastructure, security,
    health, education, waste, other.  The category of a transcript is the
    first one in that order whose keyword set has a keyword occurring in
    the lowered transcript; when two categories have such a keyword the
    later one is never returned, and the result is the earlier one or a
    matching category before it; when no category has one the result is
    ['other']. *)
Theorem category_first_match_wins (transcript : list N) :
  let result := category (extract_civic_info transcript) in
  map fst issue_keywords
  = [str "infrastructure"; str "security"; str "health"; str "education";
     str "waste"; str "other"]
  /\ (forall i a ka,
        issue_keywords !! i = Some (a, ka) ->
        mentions ka transcript ->
        (forall i' c kc, (i' < i)%nat -> issue_keywords !! i' = Some (c, kc) ->
                         ~ mentions kc transcript) ->
        result = a)
  /\ (forall i j a ka b kb,
        (i < j)%nat ->
        issue_keywords !! i = Some (a, ka) ->
        issue_keywords !! j = Some (b, kb) ->
        mentions ka transcript ->
        mentions kb transcript ->
        result <> b
        /\ exists i' c kc,
             (i' <= i)%nat /\ issue_keywords !! i' = Some (c, kc)
             /\ mentions kc transcript /\ result = c)
  /\ ((forall c kc, (c, kc) ∈ issue_keywords -> ~ mentions kc transcript) ->
      result = str "other").
Proof.
  intros result. split; [reflexivity|].
  subst result. rewrite category_eq.
  apply first_match_contract, issue_labels_distinct.
Qed.

Lemma category_first_match_wins_witness :
  let transcript := str "Multiple theft cases near the school" in
  mentions [str "crime"; str "theft"; str "violence"; str "unsafe";
            str "robbery"; str "security"] transcript
  /\ mentions [str "school"; str "teacher"; str "education"; str "student";
               str "classroom"] transcript
  /\ category (extract_civic_info transcript) = str "security"
  /\ category (extract_civic_info transcript) <> str "education"
  /\ category (extract_civic_info (str "Good morning")) = str "other".
Proof.
  intros transcript.
  assert (Hsec : mentions [str "crime"; str "theft"; str "violence"; str "unsafe";
                           str "robbery"; str "security"] transcript)
    by (apply mentions_iff; vm_compute; reflexivity).
  assert (Hedu : mentions [str "school"; str "teacher"; str "education";
                           str "student"; str "classroom"] transcript)
    by (apply mentions_iff; vm_compute; reflexivity).
  destruct (category_first_match_wins transcript) as (_ & Hfirst & Htwo & _).
  destruct (category_first_match_wins (str "Good morning")) as (_ & _ & _ & Hnone).
  split_and!.
  - exact Hsec.
  - exact Hedu.
  - apply (Hfirst 1%nat _ _ eq_refl Hsec).
    intros [|i'] c kc Hlt Hlook; [|lia].
    injection Hlook as <- <-. apply not_mentions_iff. vm_compute. reflexivity.
  - apply (Htwo 1%nat 3%nat _ _ _ _ ltac:(lia) eq_refl eq_refl Hsec Hedu).
  - apply Hnone. intros c kc Hin. apply not_mentions_iff.
    assert (Hall : Forall (fun e => any_keyword_in e.2 (py_lower (str "Good morning")) = false)
                          issue_keywords)
      by (repeat constructor).
    rewrite Forall_forall in Hall. apply (Hall (c, kc) Hin).
Defined.

(** C8. The priorities are tested in the order urgent, high, medium, low.
    The priority of a transcript is the first one in that order whose
    keyword set has a keyword occurring in the lowered transcript, and
    ['medium'] when no priority has one. *)
Theorem priority_first_match_wins (transcript : list N) :
  let result := priority (extract_civic_info transcript) in
  map fst priority_keywords
  = [str "urgent"; str "high"; str "medium"; str "low"]
  /\ (forall i a ka,
        priority_keywords !! i = Some (a, ka) ->
        mentions ka transcript ->
        (forall i' c kc, (i' < i)%nat -> priority_keywords !! i' = Some (c, kc) ->
                         ~ mentions kc transcript) ->
        result = a)
  /\ (forall i j a ka b kb,
        (i < j)%nat ->
        priority_keywords !! i = Some (a, ka) ->
        priority_keywords !! j = Some (b, kb) ->
        mentions ka transcript ->
        mentions kb transcript ->
        result <> b
        /\ exists i' c kc,
             (i' <= i)%nat /\ priority_keywords !! i' = Some (c, kc)
             /\ mentions kc transcript /\ result = c)
  /\ ((forall c kc, (c, kc) ∈ priority_keywords -> ~ mentions kc transcript) ->
      result = str "medium").
Proof.
  intros result. split; [reflexivity|].
  subst result. rewrite priority_eq.
  apply first_match_contract, priority_labels_distinct.
Qed.

Lemma priority_first_match_wins_witness :
  let transcript := str "A serious issue on the main road" in
  mentions [str "serious"; str "important"; str "major"; str "significant"] transcript
  /\ mentions [str "moderate"; str "concern"; str "issue"] transcript
  /\ priority (extract_civic_info transcript) = str "high"
  /\ priority (extract_civic_info transcript) <> str "medium"
  /\ priority (extract_civic_info (str "Good morning")) = str "medium".
Proof.
  intros transcript.
  assert (Hhigh : mentions [str "serious"; str "important"; str "major";
                            str "significant"] transcript)
    by (apply mentions_iff; vm_compute; reflexivity).
  assert (Hmed : mentions [str "moderate"; str "concern"; str "issue"] transcript)
    by (apply mentions_iff; vm_compute; reflexivity).
  destruct (priority_first_match_wins transcript) as (_ & Hfirst & Htwo & _).
  destruct (priority_first_match_wins (str "Good morning")) as (_ & _ & _ & Hnone).
  split_and!.
  - exact Hhigh.
  - exact Hmed.
  - apply (Hfirst 1%nat _ _ eq_refl Hhigh).
    intros [|i'] c kc Hlt Hlook; [|lia].
    injection Hlook as <- <-. apply not_mentions_iff. vm_compute. reflexivity.
  - apply (Htwo 1%nat 2%nat _ _ _ _ ltac:(lia) eq_refl eq_refl Hhigh Hmed).
  - apply Hnone. intros c kc Hin. apply not_mentions_iff.
    assert (Hall : Forall (fun e => any_keyword_in e.2 (py_lower (str "Good morning")) = false)
                          priority_keywords)
      by (repeat constructor).
    rewrite Forall_forall in Hall. apply (Hall (c, kc) Hin).
Defined.

(** C3. A transcript of more than 200 characters is summarised by its
    first 200 characters followed by the three-character marker [...], 203
    characters in all; a transcript of at most 200 characters is its own
    summary. *)
Theorem summary_truncation (transcript : list N) :
  let result := summary (extract_civic_info transcript) in
  ((200 < length transcript)%nat ->
     result = take 200 transcript ++ str "..."
     /\ length result = 203%nat
     /\ take 200 result = take 200 transcript
     /\ drop 200 result = [46; 46; 46])
  /\ ((length transcript <= 200)%nat -> result = transcript).
Proof.
  intros result. subst result. unfold extract_civic_info. simpl summary.
  destruct (200 <? length transcript)%nat eqn:Hlen.
  - apply Nat.ltb_lt in Hlen. split; [|lia]. intros _.
    assert (Htake : length (take 200 transcript) = 200%nat)
      by (rewrite length_take; lia).
    split_and!.
    + done.
    + rewrite length_app, Htake. reflexivity.
    + rewrite take_app_length'; done.
    + rewrite drop_app_length'; done.
  - apply Nat.ltb_ge in Hlen. split; [lia | done].
Qed.

Lemma summary_truncation_witness :
  length (summary (extract_civic_info (replicate 250 97))) = 203%nat
  /\ summary (extract_civic_info (str "Water supply has been cut off"))
     = str "Water supply has been cut off".
Proof.
  split.
  - destruct (summary_truncation (replicate 250 97)) as [Hlong _].
    apply Hlong. rewrite length_replicate. lia.
  - destruct (summary_truncation (str "Water supply has been cut off")) as [_ Hshort].
    apply Hshort. apply Nat.leb_le. reflexivity.
Defined.

(** C2. The transcript of the round-trip scenario is classified as
    infrastructure and urgent; the first location pattern, [in], matches
    it, its first match is [Malali area], which trimmed and title-cased is
    the location [Malali Area]; the summary is the whole transcript. *)
Theorem round_trip_scenario :
  let transcript :=
    str "Emergency! Major water pipe burst in Malali area, urgent attention needed" in
  let report := extract_civic_info transcript in
  category report = str "infrastructure"
  /\ priority report = str "urgent"
  /\ location report = str "Malali Area"
  /\ summary report = transcript
  /\ full_transcript report = transcript
  /\ head location_patterns = Some (word_then_phrase "in")
  /\ findall (word_then_phrase "in") transcript = [str "Malali area"]
  /\ py_title (py_strip (str "Malali area")) = str "Malali Area".
Proof. vm_compute. split_and!; reflexivity. Qed.

(** C9. The empty transcript is classified: category ['other'], priority
    ['medium'], the location sentinel and the empty summary. *)
Theorem empty_transcript :
  extract_civic_info []
  = {| category := str "other";
       priority := str "medium";
       location := str "Location not specified";
       summary := [];
       full_transcript := [] |}.
Proof. reflexivity. Qed.

(** ** The formatter *)

Lemma py_strip_framed (body : list N) (c d : N) :
  head body = Some c -> is_space c = false ->
  last body = Some d -> is_space d = false ->
  py_strip (nl ++ body ++ nl) = body.
Proof.
  intros Hhead Hc Hlast Hd.
  destruct body as [|c' rest]; [done|]. injection Hhead as ->.
  unfold py_strip. simpl. rewrite Hc.
  change (c :: rest ++ nl) with ((c :: rest) ++ [10]).
  rewrite rstrip_snoc_space by reflexivity.
  apply last_Some in Hlast as [front ->].
  apply rstrip_snoc_other, Hd.
Qed.

(** [strip] only removes the line breaks that frame the template. *)
Lemma format_telegram_message_eq info call_metadata timestamp :
  format_telegram_message info call_metadata timestamp
  = report_head info timestamp
    ++ duration_field call_metadata ++ nl
    ++ caller_field call_metadata ++ nl
    ++ report_tail timestamp.
Proof.
  unfold format_telegram_message.
  apply (py_strip_framed _ 0x1F3DB 42); [reflexivity | reflexivity | | reflexivity].
  unfold report_tail. rewrite !last_app. reflexivity.
Qed.

Lemma metadata_fields_absent call_metadata :
  call_metadata = None \/ call_metadata = Some ∅ ->
  duration_field call_metadata = [] /\ caller_field call_metadata = [].
Proof. intros [-> | ->]; split; reflexivity. Qed.

Lemma metadata_fields_present (d : gmap (list N) pyval) :
  d <> ∅ ->
  duration_field (Some d)
  = [0x1F4F1] ++ str " **Call Duration:** "
    ++ py_str (dict_get d (str "duration") (PyStr (str "N/A"))) ++ str " seconds"
  /\ caller_field (Some d)
    = [0x1F4DE] ++ str " **Caller ID:** "
      ++ py_str (dict_get d (str "caller_id") (PyStr (str "N/A"))).
Proof.
  intros Hd. unfold duration_field, caller_field, truthy.
  rewrite bool_decide_eq_false_2 by done. split; reflexivity.
Qed.

(** C5, as the code has it.  Between the summary and the rule the message
    has two metadata lines.  Whenever the metadata record is supplied and
    has at least one field, they are the call-duration and caller lines,
    each showing its field, or [N/A] when that field is absent; exactly
    when the metadata record is absent or has no field at all, both lines
    are left empty. *)
Theorem metadata_lines (info : civic_info) (timestamp : list N) :
  exists head tail,
    (exists h, head = h ++ summary info ++ nl ++ nl)
    /\ (exists t, tail = nl ++ str "---" ++ nl ++ t)
    /\ (forall call_metadata,
          call_metadata = None \/ call_metadata = Some ∅ ->
          format_telegram_message info call_metadata timestamp
          = head ++ [] ++ nl ++ [] ++ nl ++ tail)
    /\ (forall d : gmap (list N) pyval,
          d <> ∅ ->
          exists duration caller,
            format_telegram_message info (Some d) timestamp
            = head ++ duration_line duration ++ nl
                   ++ caller_line caller ++ nl ++ tail
            /\ duration_line duration <> [] /\ caller_line caller <> []
            /\ (d !! str "duration" = None -> duration = str "N/A")
            /\ (d !! str "caller_id" = None -> caller = str "N/A")
            /\ (forall v, d !! str "duration" = Some v -> duration = py_str v)
            /\ (forall v, d !! str "caller_id" = Some v -> caller = py_str v)).
Proof.
  exists (report_head info timestamp), (report_tail timestamp). split_and!.
  - unfold report_head. eexists. rewrite !app_assoc. reflexivity.
  - unfold report_tail. eexists. reflexivity.
  - intros call_metadata Habsent.
    destruct (metadata_fields_absent call_metadata Habsent) as [Hd Hc].
    rewrite format_telegram_message_eq, Hd, Hc. reflexivity.
  - intros d Hne.
    destruct (metadata_fields_present d Hne) as [Hd Hc].
    exists (py_str (dict_get d (str "duration") (PyStr (str "N/A")))),
           (py_str (dict_get d (str "caller_id") (PyStr (str "N/A")))).
    split_and!.
    + rewrite format_telegram_message_eq, Hd, Hc. reflexivity.
    + done.
    + done.
    + unfold dict_get. intros ->. reflexivity.
    + unfold dict_get. intros ->. reflexivity.
    + unfold dict_get. intros v ->. reflexivity.
    + unfold dict_get. intros v ->. reflexivity.
Qed.

Lemma metadata_lines_witness :
  let info := extract_civic_info (str "Water supply has been cut off in Malali area") in
  let d : gmap (list N) pyval := {[ str "duration" := PyInt 42 ]} in
  d <> ∅
  /\ d !! str "caller_id" = None
  /\ exists head tail,
       format_telegram_message info (Some d) (str "2024-01-15 10:30:00")
       = head ++ duration_line (str "42") ++ nl
              ++ caller_line (str "N/A") ++ nl ++ tail.
Proof.
  intros info d.
  assert (Hne : d <> ∅) by apply map_non_empty_singleton.
  assert (Hcaller : d !! str "caller_id" = None) by (vm_compute; reflexivity).
  assert (Hduration : d !! str "duration" = Some (PyInt 42)) by (vm_compute; reflexivity).
  split_and!; [exact Hne | exact Hcaller |].
  destruct (metadata_lines info (str "2024-01-15 10:30:00"))
    as (head & tail & _ & _ & _ & Hpresent).
  destruct (Hpresent d Hne) as (duration & caller & Heq & _ & _ & _ & Hc & Hd & _).
  exists head, tail.
  rewrite Heq, (Hc Hcaller), (Hd _ Hduration). reflexivity.
Defined.

(** C5, as the claim states it, fails for a metadata record without
    fields: neither [N/A] line is in the message, which is the message of
    an absent record. *)
Lemma metadata_lines_counterexample :
  let info := extract_civic_info (str "Water supply has been cut off in Malali area") in
  let supplied : option (gmap (list N) pyval) := Some ∅ in
  let message := format_telegram_message info supplied (str "2024-01-15 10:30:00") in
  ~ (exists pre post, message = pre ++ duration_line (str "N/A") ++ post)
  /\ ~ (exists pre post, message = pre ++ caller_line (str "N/A") ++ post)
  /\ message = format_telegram_message info None (str "2024-01-15 10:30:00").
Proof.
  intros info supplied message. split_and!.
  - rewrite <- py_in_spec. vm_compute. discriminate.
  - rewrite <- py_in_spec. vm_compute. discriminate.
  - vm_compute. reflexivity.
Qed.

Lemma py_replace_cons old new c (s : list N) :
  py_replace old new (c :: s)
  = (if c =? old then new else [c]) ++ py_replace old new s.
Proof. reflexivity. Qed.

Lemma py_replace_app old new (s t : list N) :
  py_replace old new (s ++ t) = py_replace old new s ++ py_replace old new t.
Proof. apply flat_map_app. Qed.

Lemma replace_chain_eq (timestamp : list N) :
  py_replace 32 (str "-") (py_replace 58 [] (py_replace 45 [] timestamp))
  = flat_map identifier_char timestamp.
Proof.
  induction timestamp as [|c rest IH]; [done|].
  rewrite py_replace_cons, !py_replace_app, IH.
  change (flat_map identifier_char (c :: rest))
    with (identifier_char c ++ flat_map identifier_char rest).
  f_equal. unfold identifier_char.
  destruct (c =? 45) eqn:H45; [reflexivity|].
  rewrite py_replace_cons.
  destruct (c =? 58) eqn:H58; [reflexivity|].
  change (py_replace 58 [] []) with (@nil N). rewrite app_nil_r.
  rewrite py_replace_cons.
  destruct (c =? 32); reflexivity.
Qed.

Lemma identifier_digits (digits : list N) :
  Forall (fun c => is_decimal c = true) digits ->
  flat_map identifier_char digits = digits.
Proof.
  induction 1 as [|c rest Hc _ IH]; [done|].
  simpl. rewrite IH. unfold identifier_char.
  unfold is_decimal, in_range in Hc. apply andb_true_iff in Hc as [Hlo Hhi].
  apply N.leb_le in Hlo, Hhi.
  destruct (N.eqb_spec c 45); [lia|].
  destruct (N.eqb_spec c 58); [lia|].
  destruct (N.eqb_spec c 32); [lia|]. done.
Qed.

(** C6, as the code has it.  The message ends with the line
    [*Report ID: CVC-<identifier>*], where the identifier is the timestamp
    with every [-] and [:] removed and every space turned into [-]: for a
    timestamp [YYYY-MM-DD HH:MM:SS] it is [YYYYMMDD-HHMMSS]. *)
Theorem report_identifier_line (info : civic_info)
    (call_metadata : option (gmap (list N) pyval)) (timestamp : list N) :
  (exists pre,
      format_telegram_message info call_metadata timestamp
      = pre ++ nl ++ str "*Report ID: " ++ str "CVC-"
            ++ flat_map identifier_char timestamp ++ str "*")
  /\ (forall year month day hour minute second,
        Forall (fun c => is_decimal c = true)
               (year ++ month ++ day ++ hour ++ minute ++ second) ->
        timestamp = year ++ str "-" ++ month ++ str "-" ++ day ++ str " "
                    ++ hour ++ str ":" ++ minute ++ str ":" ++ second ->
        flat_map identifier_char timestamp
        = year ++ month ++ day ++ str "-" ++ hour ++ minute ++ second).
Proof.
  split.
  - rewrite format_telegram_message_eq. unfold report_tail.
    rewrite replace_chain_eq.
    exists (report_head info timestamp
            ++ duration_field call_metadata ++ nl
            ++ caller_field call_metadata ++ nl ++ nl ++ str "---").
    rewrite <- !app_assoc. reflexivity.
  - intros year month day hour minute second Hdigits ->.
    rewrite !Forall_app in Hdigits.
    destruct Hdigits as (Hy & Hm & Hd & Hh & Hmi & Hs).
    rewrite !flat_map_app.
    rewrite (identifier_digits year), (identifier_digits month),
      (identifier_digits day), (identifier_digits hour),
      (identifier_digits minute), (identifier_digits second) by done.
    reflexivity.
Qed.

Lemma report_identifier_line_witness :
  flat_map identifier_char (str "2024-01-15 10:30:00") = str "20240115-103000".
Proof.
  destruct (report_identifier_line (extract_civic_info []) None
              (str "2024-01-15 10:30:00")) as [_ Hshape].
  apply (Hshape (str "2024") (str "01") (str "15") (str "10") (str "30") (str "00")).
  - repeat constructor.
  - reflexivity.
Defined.

(** C6, as the claim states it, fails: the timestamp stripped of its three
    separators occurs nowhere in the message. *)
Lemma report_identifier_line_counterexample :
  let timestamp := str "2024-01-15 10:30:00" in
  let message :=
    format_telegram_message
      (extract_civic_info (str "Water supply has been cut off in Malali area"))
      None timestamp in
  without_separators timestamp = str "20240115103000"
  /\ ~ (exists pre post, message = pre ++ without_separators timestamp ++ post)
  /\ py_endswith (str "*Report ID: CVC-20240115-103000*") message = true.
Proof.
  intros timestamp message. split_and!.
  - vm_compute. reflexivity.
  - rewrite <- py_in_spec. vm_compute. discriminate.
  - vm_compute. reflexivity.
Qed.

(** ** The dispatcher *)

(** Both validations come before the request: a rejected credential ends
    the call with [False], one message shown and nothing posted. *)
Lemma validation_precedes_network net message token chat_id w :
  validate_telegram_token token = false \/ validate_chat_id chat_id = false ->
  exists shown_message,
    send_to_telegram net message token chat_id w
    = (Return false, {| shown := shown w ++ [shown_message]; posted := posted w |})
    /\ describes InvalidCredential shown_message.
Proof.
  intros Hbad. unfold send_to_telegram.
  destruct (validate_telegram_token token) eqn:Htoken; cbn [negb].
  - destruct Hbad as [? | Hchat]; [done|]. rewrite Hchat. cbn [negb].
    eexists. split; [reflexivity | right; reflexivity].
  - eexists. split; [reflexivity | left; reflexivity].
Qed.

(** With both credentials accepted exactly one request is posted, and its
    answer decides the result. *)
Lemma accepted_credentials_post net message token chat_id w :
  validate_telegram_token token = true ->
  validate_chat_id chat_id = true ->
  exists b shown',
    send_to_telegram net message token chat_id w
    = (Return b,
       {| shown := shown';
          posted := posted w ++ [the_request message token chat_id] |})
    /\ match net (the_request message token chat_id) with
       | Return r =>
           if (status_code r =? 200)%Z
           then b = true /\ shown' = shown w
           else b = false
                /\ shown' = shown w ++ [str "Telegram API Error: "
                                         ++ py_str (PyInt (status_code r))
                                         ++ str " - " ++ text r]
       | Raise Timeout =>
           b = false
           /\ shown' = shown w ++ [str "Request timed out. Please try again."]
       | Raise (OtherException details) =>
           b = false /\ shown' = shown w ++ [str "Telegram Error: " ++ details]
       end.
Proof.
  intros Htoken Hchat. unfold send_to_telegram. rewrite Htoken, Hchat.
  cbn [negb]. fold (the_request message token chat_id).
  unfold try_except, bind, requests_post, st_error, ret.
  destruct (net (the_request message token chat_id)) as [r | [|details]].
  - destruct (status_code r =? 200)%Z; cbn [shown posted]; eauto.
  - cbn [shown posted]. eauto.
  - cbn [shown posted]. eauto.
Qed.

(** C7, as the code has it.  The dispatcher always returns and never
    raises: [True] when the request is answered with status 200 and
    [False] for every failure, whatever its kind.  The kind of a failure
    is told apart only by the one message shown with [st.error]. *)
Theorem failures_reported (net : request -> outcome response)
    (message token chat_id : list N) (w : world) :
  exists b w',
    send_to_telegram net message token chat_id w = (Return b, w')
    /\ match spec_dispatch net message token chat_id with
       | Ok => b = true /\ shown w' = shown w
       | Fail e =>
           b = false
           /\ exists shown_message,
                shown w' = shown w ++ [shown_message]
                /\ describes e shown_message
       end.
Proof.
  unfold spec_dispatch.
  destruct (validate_telegram_token token) eqn:Htoken;
    [destruct (validate_chat_id chat_id) eqn:Hchat|]; cbn [andb negb].
  - destruct (accepted_credentials_post net message token chat_id w Htoken Hchat)
      as (b & shown' & -> & Hnet).
    exists b, {| shown := shown';
                 posted := posted w ++ [the_request message token chat_id] |}.
    split; [reflexivity|]. cbn [shown].
    destruct (net (the_request message token chat_id)) as [r | [|details]].
    + destruct (status_code r =? 200)%Z; destruct Hnet as [-> ->]; [done|].
      split; [done|]. eexists. split; reflexivity.
    + destruct Hnet as [-> ->]. split; [done|]. eexists. split; reflexivity.
    + destruct Hnet as [-> ->]. split; [done|]. eexists. split; reflexivity.
  - destruct (validation_precedes_network net message token chat_id w)
      as (m & -> & Hm); [by right|].
    eexists _, _. split; [reflexivity|]. split; [done|]. exists m. done.
  - destruct (validation_precedes_network net message token chat_id w)
      as (m & -> & Hm); [by left|].
    eexists _, _. split; [reflexivity|]. split; [done|]. exists m. done.
Qed.

(** C7, as the claim states it, fails: a rejected token and a timeout are
    failures of different kinds and give the caller the same value, so no
    reading of the returned value recovers the kind of failure. *)
Lemma failures_reported_counterexample :
  let net : request -> outcome response := fun _ => Raise Timeout in
  let w := {| shown := []; posted := [] |} in
  let chat_id := str "-100200300" in
  spec_dispatch net (str "hi") (str "abc") chat_id = Fail InvalidCredential
  /\ spec_dispatch net (str "hi") (str "123:AbC-1_2") chat_id = Fail TimeoutError
  /\ (send_to_telegram net (str "hi") (str "abc") chat_id w).1 = Return false
  /\ (send_to_telegram net (str "hi") (str "123:AbC-1_2") chat_id w).1 = Return false
  /\ ~ (exists tag : outcome bool -> dispatch_result,
          forall net message token chat_id w,
            tag (send_to_telegram net message token chat_id w).1
            = spec_dispatch net message token chat_id).
Proof.
  intros net w chat_id.
  assert (H1 : spec_dispatch net (str "hi") (str "abc") chat_id = Fail InvalidCredential)
    by (vm_compute; reflexivity).
  assert (H2 : spec_dispatch net (str "hi") (str "123:AbC-1_2") chat_id = Fail TimeoutError)
    by (vm_compute; reflexivity).
  assert (H3 : (send_to_telegram net (str "hi") (str "abc") chat_id w).1 = Return false)
    by (vm_compute; reflexivity).
  assert (H4 : (send_to_telegram net (str "hi") (str "123:AbC-1_2") chat_id w).1
               = Return false)
    by (vm_compute; reflexivity).
  split_and!; try done.
  intros [tag Htag].
  pose proof (Htag net (str "hi") (str "abc") chat_id w) as Ha.
  pose proof (Htag net (str "hi") (str "123:AbC-1_2") chat_id w) as Hb.
  rewrite H1, H3 in Ha. rewrite H2, H4 in Hb. congruence.
Qed.

(** C10. Every destination that begins with a minus sign is accepted,
    whatever follows it, [-abc] and [-] among them; with an accepted token
    the dispatcher then posts the request to that destination instead of
    failing on the credentials. *)
Theorem minus_prefixed_destination (rest : list N) :
  validate_chat_id (str "-" ++ rest) = true
  /\ validate_chat_id (str "-abc") = true
  /\ validate_chat_id (str "-") = true
  /\ forall net message token w,
       validate_telegram_token token = true ->
       spec_dispatch net message token (str "-" ++ rest) <> Fail InvalidCredential
       /\ exists b shown',
            send_to_telegram net message token (str "-" ++ rest) w
            = (Return b,
               {| shown := shown';
                  posted := posted w
                            ++ [the_request message token (str "-" ++ rest)] |})
            /\ json_chat_id (the_request message token (str "-" ++ rest))
               = str "-" ++ rest.
Proof.
  assert (Hchat : validate_chat_id (str "-" ++ rest) = true).
  { change (str "-" ++ rest) with (45 :: rest). unfold validate_chat_id.
    change (py_startswith (str "-") (45 :: rest)) with true.
    apply orb_true_r. }
  split_and!; [exact Hchat | reflexivity | reflexivity |].
  intros net message token w Htoken. split.
  - unfold spec_dispatch. rewrite Htoken, Hchat. cbn [andb negb].
    destruct (net _) as [r | [|details]]; [|done|done].
    destruct (status_code r =? 200)%Z; done.
  - destruct (accepted_credentials_post net message token _ w Htoken Hchat)
      as (b & shown' & Heq & _).
    exists b, shown'. split; [exact Heq | reflexivity].
Qed.

Lemma minus_prefixed_destination_witness :
  let net : request -> outcome response :=
    fun _ => Return {| status_code := 200; text := str "ok" |} in
  validate_telegram_token (str "123:AbC-1_2") = true
  /\ exists b shown',
       send_to_telegram net (str "hi") (str "123:AbC-1_2") (str "-abc")
                        {| shown := []; posted := [] |}
       = (Return b,
          {| shown := shown';
             posted := [the_request (str "hi") (str "123:AbC-1_2") (str "-abc")] |}).
Proof.
  intros net. split; [reflexivity|].
  destruct (minus_prefixed_destination (str "abc")) as (_ & _ & _ & Hpost).
  destruct (Hpost net (str "hi") (str "123:AbC-1_2") {| shown := []; posted := [] |}
              eq_refl) as (_ & b & shown' & Heq & _).
  exists b, shown'. exact Heq.
Defined.


(** The credentials the specification names: the first two are accepted,
    [abc] is rejected as a token and as a destination, and a rejected
    credential ends the call before anything is posted. *)
Lemma documented_credentials net message w :
  validate_telegram_token (str "123:AbC-1_2") = true
  /\ validate_chat_id (str "-100200300") = true
  /\ validate_telegram_token (str "abc") = false
  /\ validate_chat_id (str "abc") = false
  /\ (forall chat_id,
        (send_to_telegram net message (str "abc") chat_id w).1 = Return false
        /\ posted (send_to_telegram net message (str "abc") chat_id w).2 = posted w)
  /\ (forall token,
        (send_to_telegram net message token (str "abc") w).1 = Return false
        /\ posted (send_to_telegram net message token (str "abc") w).2 = posted w).
Proof.
  split_and!; try reflexivity.
  - intros chat_id.
    destruct (validation_precedes_network net message (str "abc") chat_id w)
      as (m & -> & _); [left; reflexivity | done].
  - intros token.
    destruct (validation_precedes_network net message token (str "abc") w)
      as (m & -> & _); [right; reflexivity | done].
Qed.

(** C4 at a failing input.  A well-formed token followed by a line feed is
    not of the form digits, colon, body, and is accepted all the same:
    [$] also matches before a final line feed.  The request is then posted
    with the line feed inside its address. *)
Theorem token_with_line_feed_accepted :
  let token := str "123:AbC-1_2" ++ [10] in
  validate_telegram_token token = true
  /\ ~ spec_token_format token
  /\ forall net message w,
       posted (send_to_telegram net message token (str "-100200300") w).2
       = posted w ++ [the_request message token (str "-100200300")].
Proof.
  intros token. split_and!.
  - reflexivity.
  - intros (digits & body & Heq & _ & _ & Hbody & Hall).
    apply (f_equal last) in Heq. unfold token in Heq.
    rewrite last_snoc, !last_app in Heq.
    destruct (last body) as [x|] eqn:Hlast.
    + injection Heq as <-.
      apply last_Some_elem_of in Hlast.
      rewrite Forall_forall in Hall. apply Hall in Hlast. discriminate.
    + apply last_None in Hlast. done.
  - intros net message w.
    destruct (accepted_credentials_post net message token (str "-100200300") w)
      as (b & shown' & -> & _); reflexivity.
Qed.


(** * Further properties of the code *)

(** ** Validation of the destination *)



(** ** The classifier: labels and letter case *)

Lemma first_match_range table text default :
  first_match table text default = default
  \/ first_match table text default ∈ map fst table.
Proof.
  induction table as [|[label kws] rest IH]; simpl; [by left|].
  destruct (any_keyword_in kws text).
  - right. apply list_elem_of_here.
  - destruct IH as [-> | IH]; [by left|]. right. by apply list_elem_of_further.
Qed.

(** X3. The category is always one of the six labels and the priority
    one of the four, so both glyph tables of the formatter have an entry
    for every report the classifier produces. *)
Theorem classifier_labels (transcript : list N) :
  let report := extract_civic_info transcript in
  category report
    ∈ [str "infrastructure"; str "security"; str "health"; str "education";
       str "waste"; str "other"]
  /\ priority report ∈ [str "urgent"; str "high"; str "medium"; str "low"]
  /\ is_Some (category_emojis !! category report)
  /\ is_Some (priority_emojis !! priority report).
Proof.
  intros report.
  assert (Hc : category report
                 ∈ [str "infrastructure"; str "security"; str "health";
                    str "education"; str "waste"; str "other"]).
  { subst report. rewrite category_eq.
    destruct (first_match_range issue_keywords (py_lower transcript) (str "other"))
      as [-> | H]; [|exact H].
    rewrite !elem_of_cons. tauto. }
  assert (Hp : priority report ∈ [str "urgent"; str "high"; str "medium"; str "low"]).
  { subst report. rewrite priority_eq.
    destruct (first_match_range priority_keywords (py_lower transcript) (str "medium"))
      as [-> | H]; [|exact H].
    rewrite !elem_of_cons. tauto. }
  split_and!; [exact Hc | exact Hp | |].
  - rewrite !elem_of_cons, elem_of_nil in Hc.
    destruct Hc as [-> | [-> | [-> | [-> | [-> | [-> | []]]]]]];
      vm_compute; eauto.
  - rewrite !elem_of_cons, elem_of_nil in Hp.
    destruct Hp as [-> | [-> | [-> | [-> | []]]]]; vm_compute; eauto.
Qed.

Ltac split_comparisons :=
  repeat match goal with
         | |- context [(?a <=? ?b)%N] => destruct (N.leb_spec a b)
         | |- context [(?a =? ?b)%N] => destruct (N.eqb_spec a b)
         end.

Lemma lower_cp_idem (c : N) : py_lower (lower_cp c) = lower_cp c.
Proof.
  unfold py_lower, lower_cp, is_upper_az, in_range.
  split_comparisons; simpl; try lia;
    unfold lower_cp, is_upper_az, in_range;
    split_comparisons; simpl; try lia; reflexivity.
Qed.

Lemma py_lower_app (s t : list N) : py_lower (s ++ t) = py_lower s ++ py_lower t.
Proof. apply flat_map_app. Qed.

Lemma py_lower_idem (s : list N) : py_lower (py_lower s) = py_lower s.
Proof.
  induction s as [|c s IH]; [done|].
  change (py_lower (c :: s)) with (lower_cp c ++ py_lower s).
  rewrite py_lower_app, lower_cp_idem, IH. done.
Qed.

Lemma in_range_true lo hi c : in_range lo hi c = true <-> lo <= c <= hi.
Proof. unfold in_range. rewrite andb_true_iff, !N.leb_le. done. Qed.

Lemma in_range_false lo hi c : in_range lo hi c = false <-> c < lo \/ hi < c.
Proof. unfold in_range. rewrite andb_false_iff, !N.leb_gt. done. Qed.

Lemma lower_cp_lower_letter (c : N) : is_lower_az c = true -> lower_cp c = [c].
Proof.
  intros H. apply in_range_true in H. unfold lower_cp, is_upper_az.
  assert (in_range 65 90 c = false) as -> by (apply in_range_false; lia).
  assert (in_range 192 222 c = false) as -> by (apply in_range_false; lia).
  assert ((c =? 304) = false) as -> by (apply N.eqb_neq; lia).
  assert ((c =? 8490) = false) as -> by (apply N.eqb_neq; lia).
  reflexivity.
Qed.

Lemma lower_cp_upper_letter (c : N) : is_upper_az c = true -> lower_cp c = [c + 32].
Proof. intros H. unfold lower_cp. rewrite H. reflexivity. Qed.

Lemma lower_cp_upper_az (c : N) : lower_cp (upper_az c) = lower_cp c.
Proof.
  unfold upper_az. destruct (is_lower_az c) eqn:H; [|reflexivity].
  rewrite (lower_cp_lower_letter c H). apply in_range_true in H.
  rewrite lower_cp_upper_letter by (apply in_range_true; lia).
  f_equal. lia.
Qed.

Lemma py_lower_ascii_upper (s : list N) : py_lower (ascii_upper s) = py_lower s.
Proof.
  induction s as [|c s IH]; [done|].
  change (py_lower (ascii_upper (c :: s)))
    with (lower_cp (upper_az c) ++ py_lower (ascii_upper s)).
  rewrite lower_cp_upper_az, IH. done.
Qed.

(** X4. Category and priority do not depend on letter case: the lowered
    transcript and the transcript in capitals are classified like the
    transcript itself. *)
Theorem classification_ignores_case (transcript : list N) :
  let report := extract_civic_info transcript in
  category (extract_civic_info (py_lower transcript)) = category report
  /\ priority (extract_civic_info (py_lower transcript)) = priority report
  /\ category (extract_civic_info (ascii_upper transcript)) = category report
  /\ priority (extract_civic_info (ascii_upper transcript)) = priority report.
Proof.
  intros report. subst report.
  rewrite !category_eq, !priority_eq, py_lower_idem, py_lower_ascii_upper. done.
Qed.

(** X5. A transcript that contains an infrastructure keyword anywhere, in
    any letter case and also inside a longer word, is classified as
    infrastructure whatever else it says; likewise a keyword of urgency
    makes it urgent. *)
Theorem top_entries_dominate (before word after : list N) :
  (py_lower word
     ∈ [str "road"; str "bridge"; str "water"; str "electricity"; str "power";
        str "drainage"] ->
   category (extract_civic_info (before ++ word ++ after)) = str "infrastructure")
  /\ (py_lower word
        ∈ [str "emergency"; str "urgent"; str "immediate"; str "critical";
           str "danger"] ->
      priority (extract_civic_info (before ++ word ++ after)) = str "urgent").
Proof.
  split; intros Hword.
  - rewrite category_eq. unfold issue_keywords.
    apply (first_match_first _ _ []); [constructor|].
    apply any_keyword_in_spec. exists (py_lower word). split; [exact Hword|].
    exists (py_lower before), (py_lower after). rewrite !py_lower_app. done.
  - rewrite priority_eq. unfold priority_keywords.
    apply (first_match_first _ _ []); [constructor|].
    apply any_keyword_in_spec. exists (py_lower word). split; [exact Hword|].
    exists (py_lower before), (py_lower after). rewrite !py_lower_app. done.
Qed.

Lemma top_entries_dominate_witness :
  category (extract_civic_info (str "Theft at the school by the " ++ str "BRIDGE" ++ str "s"))
  = str "infrastructure"
  /\ priority (extract_civic_info (str "A minor, non-" ++ str "Urgent" ++ str " issue"))
     = str "urgent".
Proof.
  split.
  - destruct (top_entries_dominate (str "Theft at the school by the ") (str "BRIDGE")
                (str "s")) as [H _].
    apply H. rewrite !elem_of_cons. right. left. vm_compute. reflexivity.
  - destruct (top_entries_dominate (str "A minor, non-") (str "Urgent") (str " issue"))
      as [_ H].
    apply H. rewrite !elem_of_cons. right. left. vm_compute. reflexivity.
Defined.

(** X6. The summary never has more than 203 characters and always agrees
    with the transcript on the first 200; the full transcript is kept
    beside it unchanged. *)
Theorem summary_bounded (transcript : list N) :
  let report := extract_civic_info transcript in
  (length (summary report) <= 203)%nat
  /\ (length (summary report) <= length transcript + 3)%nat
  /\ take 200 (summary report) = take 200 transcript
  /\ full_transcript report = transcript.
Proof.
  intros report. subst report. unfold extract_civic_info.
  cbn [summary full_transcript].
  destruct (200 <? length transcript)%nat eqn:Hlen.
  - apply Nat.ltb_lt in Hlen.
    assert (Htake : length (take 200 transcript) = 200%nat)
      by (rewrite length_take; lia).
    split_and!; [| |by rewrite take_app_length'|done].
    + rewrite length_app, Htake. change (length (str "...")) with 3%nat. lia.
    + rewrite length_app, Htake. change (length (str "...")) with 3%nat. lia.
  - apply Nat.ltb_ge in Hlen. split_and!; [lia | lia | done | done].
Qed.

(** ** The classifier: the location *)

Section Captures.

Variable Q : N -> Prop.

Lemma more_of_capture p cap k :
  (cap = true -> forall c, p c = true -> Q c) ->
  (forall s r, k s = Some r -> Forall Q r.1) ->
  forall s r, more_of p cap k s = Some r -> Forall Q r.1.
Proof.
  intros Hp Hk. induction s as [|c s IH]; intros r; simpl; [apply Hk|].
  destruct (p c) eqn:Hc; [|apply Hk].
  destruct (more_of p cap k s) as [r'|] eqn:Hmore; [|apply Hk].
  intros [= <-]. unfold consume. simpl. destruct cap; [|eauto].
  constructor; eauto.
Qed.

Lemma matcher_dollar_unfold rest b s :
  matcher (Dollar :: rest) b s
  = if decide (s = [] \/ s = [10]) then matcher rest b s else None.
Proof.
  destruct s as [|c [|c' s]].
  - rewrite decide_True by (by left). reflexivity.
  - destruct (decide (c = 10)) as [-> | Hne].
    + rewrite decide_True by (by right). reflexivity.
    + rewrite decide_False by (intros [? | ?]; congruence).
      destruct c as [|q]; [done|]. do 4 (destruct q as [q|q|]; try done).
  - rewrite decide_False by (intros [? | ?]; congruence).
    destruct c as [|q]; [done|]. do 4 (destruct q as [q|q|]; try done).
Qed.

(** A match captures only characters of the captured sets. *)
Lemma matcher_capture items :
  captures_within Q items ->
  forall b s r, matcher items b s = Some r -> Forall Q r.1.
Proof.
  induction 1 as [|it rest Hit _ IH]; intros b s r.
  - intros [= <-]. constructor.
  - destruct it as [| |p cap|p cap].
    + simpl. destruct b; [apply IH | done].
    + rewrite matcher_dollar_unfold. case_decide; [apply IH | done].
    + destruct s as [|c s]; simpl; [done|].
      destruct (p c) eqn:Hc; [|done].
      destruct (matcher rest false s) as [r'|] eqn:Hrest; [|done].
      intros [= <-]. apply IH in Hrest. unfold consume. simpl.
      destruct cap; [constructor; auto | done].
    + rewrite matcher_plus_unfold. destruct s as [|c s]; [done|].
      destruct (p c) eqn:Hc; [|done].
      destruct (more_of p cap (matcher rest false) s) as [r'|] eqn:Hmore; [|done].
      intros [= <-].
      apply more_of_capture in Hmore;
        [|by intros -> | by intros; eapply IH].
      unfold consume. simpl. destruct cap; [constructor; auto | done].
Qed.

Lemma findall_from_capture items :
  captures_within Q items ->
  forall s b skip, Forall (Forall Q) (findall_from items b skip s).
Proof.
  intros Hitems. induction s as [|c s IH]; intros b skip.
  - destruct skip; simpl; [|constructor].
    destruct (matcher items b []) as [[g n]|] eqn:Hm; [|constructor].
    constructor; [|constructor]. apply (matcher_capture _ Hitems _ _ _ Hm).
  - destruct skip; simpl; [|apply IH].
    destruct (matcher items b (c :: s)) as [[g n]|] eqn:Hm; [|apply IH].
    constructor; [|apply IH]. apply (matcher_capture _ Hitems _ _ _ Hm).
Qed.

Lemma Forall_lstrip s : Forall Q s -> Forall Q (lstrip s).
Proof.
  induction 1 as [|c s Hc Hs IH]; simpl; [constructor|].
  destruct (is_space c); [exact IH | by constructor].
Qed.

Lemma Forall_py_strip s : Forall Q s -> Forall Q (py_strip s).
Proof.
  intros H. unfold py_strip, rstrip.
  apply Forall_rev, Forall_lstrip, Forall_rev, Forall_lstrip, H.
Qed.

End Captures.

Lemma letter_not_space (c : N) : is_letter c = true -> is_space c = false.
Proof.
  unfold is_letter, is_upper_az, is_lower_az. rewrite orb_true_iff, !in_range_true.
  intros H. unfold is_space.
  repeat match goal with
         | |- context [in_range ?lo ?hi c] =>
             replace (in_range lo hi c) with false
               by (symmetry; apply in_range_false; lia)
         | |- context [c =? ?n] =>
             replace (c =? n) with false by (symmetry; apply N.eqb_neq; lia)
         end.
  reflexivity.
Qed.

Lemma lower_az_letter (c : N) : is_letter c = true -> is_letter (lower_az c) = true.
Proof.
  intros H. unfold lower_az. destruct (is_upper_az c) eqn:Hu; [|exact H].
  apply in_range_true in Hu. unfold is_letter. apply orb_true_iff. right.
  apply in_range_true. lia.
Qed.

Lemma upper_az_letter (c : N) : is_letter c = true -> is_upper_az (upper_az c) = true.
Proof.
  unfold is_letter, upper_az. rewrite orb_true_iff.
  destruct (is_lower_az c) eqn:Hl.
  - intros _. apply in_range_true in Hl. apply in_range_true. lia.
  - intros [H | H]; [exact H | done].
Qed.

Lemma lower_az_other (c : N) : is_letter c = false -> lower_az c = c.
Proof.
  unfold is_letter, lower_az. rewrite orb_false_iff. intros [-> _]. reflexivity.
Qed.

Lemma upper_az_other (c : N) : is_letter c = false -> upper_az c = c.
Proof.
  unfold is_letter, upper_az. rewrite orb_false_iff. intros [_ ->]. reflexivity.
Qed.

Lemma title_char_within (c : N) :
  letter_or_space c = true ->
  letter_or_space (lower_az c) = true /\ letter_or_space (upper_az c) = true.
Proof.
  unfold letter_or_space. destruct (is_letter c) eqn:Hc.
  - intros _. rewrite (lower_az_letter c Hc).
    unfold is_letter at 1. rewrite (upper_az_letter c Hc). done.
  - rewrite (lower_az_other c Hc), (upper_az_other c Hc), Hc. done.
Qed.

Lemma title_from_within (b : bool) (s : list N) :
  Forall (fun c => letter_or_space c = true) s ->
  Forall (fun c => letter_or_space c = true) (title_from b s).
Proof.
  intros H. revert b. induction H as [|c s Hc _ IH]; intros b; simpl; [constructor|].
  destruct (title_char_within c Hc) as [Hl Hu].
  constructor; [destruct b; done | apply IH].
Qed.

Lemma title_from_snoc (b : bool) (s : list N) (d : N) :
  exists b', title_from b (s ++ [d]) = title_from b s ++ title_from b' [d].
Proof.
  revert b. induction s as [|c s IH]; intros b; simpl.
  - exists b. reflexivity.
  - destruct (IH (is_letter c)) as [b' ->]. exists b'. reflexivity.
Qed.

Lemma last_rev (s : list N) : last (rev s) = head s.
Proof. destruct s as [|c s]; [done|]. simpl. apply last_snoc. Qed.

Lemma head_rev (s : list N) : head (rev s) = last s.
Proof. rewrite <- (rev_involutive s) at 2. symmetry. apply last_rev. Qed.

Lemma head_lstrip (s : list N) (c : N) :
  head (lstrip s) = Some c -> is_space c = false.
Proof.
  induction s as [|x s IH]; simpl; [done|].
  destruct (is_space x) eqn:Hx; [exact IH|]. intros [= <-]. exact Hx.
Qed.

Lemma last_lstrip (s : list N) : lstrip s <> [] -> last (lstrip s) = last s.
Proof.
  induction s as [|x s IH]; simpl; [done|].
  destruct (is_space x); [|done]. intros Hne. rewrite (IH Hne).
  destruct s as [|y s]; [done|]. reflexivity.
Qed.

(** A trimmed text neither begins nor ends with white space. *)
Lemma py_strip_ends (s : list N) (c : N) :
  head (py_strip s) = Some c \/ last (py_strip s) = Some c -> is_space c = false.
Proof.
  unfold py_strip, rstrip. rewrite head_rev, last_rev. intros [H | H].
  - destruct (lstrip (rev (lstrip s))) eqn:Hz; [done|].
    rewrite <- Hz, last_lstrip, last_rev in H by (rewrite Hz; done).
    apply (head_lstrip _ _ H).
  - apply (head_lstrip _ _ H).
Qed.

(** The loop over the patterns returns the default or the trimmed,
    title-cased text of a match. *)
Lemma first_location_cases patterns transcript default :
  first_location patterns transcript default = default
  \/ exists pattern g,
       pattern ∈ patterns /\ g ∈ findall pattern transcript
       /\ first_location patterns transcript default = py_title (py_strip g).
Proof.
  induction patterns as [|pattern rest IH]; simpl; [by left|].
  destruct (findall pattern transcript) as [|g gs] eqn:Hfind.
  - destruct IH as [-> | (p' & g & Hp & Hg & ->)]; [by left|].
    right. exists p', g. split_and!; [by apply list_elem_of_further | done | done].
  - right. exists pattern, g. rewrite Hfind.
    split_and!; [apply list_elem_of_here | apply list_elem_of_here | done].
Qed.

Lemma word_then_phrase_captures (w : string) :
  captures_within (fun c => letter_or_space c = true) (word_then_phrase w).
Proof.
  unfold captures_within, word_then_phrase, literal.
  apply Forall_app. split.
  - apply Forall_fmap, Forall_true. done.
  - repeat constructor. done.
Qed.

(** X7. The location is made of ASCII letters and white space only; when
    it is not empty it begins with a capital letter and ends with a
    letter. *)
Theorem location_shape (transcript : list N) :
  let place := location (extract_civic_info transcript) in
  Forall (fun c => letter_or_space c = true) place
  /\ (forall c, head place = Some c -> is_upper_az c = true)
  /\ (forall c, last place = Some c -> is_letter c = true).
Proof.
  intros place. subst place. unfold extract_civic_info. cbn [location].
  destruct (first_location_cases location_patterns transcript
              (str "Location not specified"))
    as [-> | (pattern & g & Hp & Hg & ->)].
  - split_and!.
    + repeat constructor.
    + intros c [= <-]. reflexivity.
    + intros c [= <-]. reflexivity.
  - assert (Hcap : captures_within (fun c => letter_or_space c = true) pattern).
    { unfold location_patterns in Hp. rewrite !elem_of_cons, elem_of_nil in Hp.
      destruct Hp as [-> | [-> | [-> | [-> | []]]]]; apply word_then_phrase_captures. }
    assert (Hg' : Forall (fun c => letter_or_space c = true) g).
    { pose proof (findall_from_capture _ pattern Hcap transcript true O) as Hall.
      rewrite Forall_forall in Hall. apply Hall, Hg. }
    apply Forall_py_strip in Hg'.
    assert (Hletter : forall c, c ∈ py_strip g -> is_space c = false ->
                                is_letter c = true).
    { intros c Hin Hc. rewrite Forall_forall in Hg'. apply Hg' in Hin.
      unfold letter_or_space in Hin. rewrite Hc, orb_false_r in Hin. exact Hin. }
    split_and!.
    + apply title_from_within, Hg'.
    + intros c. unfold py_title.
      destruct (py_strip g) as [|x rest] eqn:Hs; [done|]. simpl. intros [= <-].
      apply upper_az_letter, Hletter; [apply list_elem_of_here|].
      apply (py_strip_ends g). left. rewrite Hs. done.
    + intros c. unfold py_title.
      destruct (last (py_strip g)) as [d|] eqn:Hlast.
      * assert (Hd : is_letter d = true).
        { apply Hletter; [by apply last_Some_elem_of|].
          apply (py_strip_ends g). by right. }
        apply last_Some in Hlast as [front ->].
        destruct (title_from_snoc false front d) as [b' ->].
        change (title_from b' [d]) with [if b' then lower_az d else upper_az d].
        rewrite last_snoc. intros [= <-].
        destruct b'; [by apply lower_az_letter|].
        unfold is_letter. rewrite (upper_az_letter d Hd). done.
      * apply last_None in Hlast as ->. done.
Qed.

Lemma location_shape_witness :
  is_upper_az 77 = true /\ is_letter 97 = true.
Proof.
  destruct (location_shape
              (str "Emergency! Major water pipe burst in Malali area, urgent attention needed"))
    as (_ & Hhead & Hlast).
  split; [apply Hhead | apply Hlast]; reflexivity.
Defined.

Lemma matcher_once_unfold p cap rest b c s :
  matcher (Once p cap :: rest) b (c :: s)
  = if p c then consume cap c <$> matcher rest false s else None.
Proof. reflexivity. Qed.

Lemma more_of_cons p cap k c s :
  more_of p cap k (c :: s)
  = if p c then
      match more_of p cap k s with
      | Some r => Some (consume cap c r)
      | None => k (c :: s)
      end
    else k (c :: s).
Proof. reflexivity. Qed.

(** A pattern that begins with a literal word matches only where the
    word stands. *)
Lemma matcher_literal_prefix (w : list N) rest b s r :
  matcher (literal w ++ rest) b s = Some r -> exists tail, s = w ++ tail.
Proof.
  revert b s r. induction w as [|c w IH]; intros b s r; [by exists s|].
  change (literal (c :: w) ++ rest) with (Once (N.eqb c) false :: (literal w ++ rest)).
  destruct s as [|x s]; [done|]. rewrite matcher_once_unfold.
  destruct (N.eqb_spec c x) as [<- | ?]; [|done].
  destruct (matcher (literal w ++ rest) false s) as [r'|] eqn:Hm; [|done].
  intros _. destruct (IH _ _ _ Hm) as [tail ->]. by exists tail.
Qed.

Lemma findall_from_nil items (s : list N) :
  (forall b post, post `suffix_of` s -> matcher items b post = None) ->
  forall b skip, findall_from items b skip s = [].
Proof.
  induction s as [|c s IH]; intros Hnone b skip.
  - destruct skip; simpl; [|done]. rewrite Hnone by done. done.
  - assert (Hs : forall b post, post `suffix_of` s -> matcher items b post = None)
      by (intros b' post Hpost; apply Hnone, suffix_cons_r, Hpost).
    destruct skip; simpl; [|by apply IH].
    rewrite Hnone by done. by apply IH.
Qed.

Lemma findall_absent (w : string) (transcript : list N) :
  ~ (exists pre post, transcript = pre ++ str w ++ post) ->
  findall (word_then_phrase w) transcript = [].
Proof.
  intros Habsent. apply findall_from_nil. intros b post [pre ->].
  destruct (matcher (word_then_phrase w) b post) as [r|] eqn:Hm; [|done].
  destruct (matcher_literal_prefix _ _ _ _ _ Hm) as [tail ->].
  destruct Habsent. by exists pre, tail.
Qed.

(** X8. A transcript in which none of the words of the location patterns,
    [in], [at], [from] and [area], occurs in lower case has the location
    [Location not specified]. *)
Theorem location_needs_a_pattern_word (transcript : list N) :
  (forall w, w ∈ ["in"; "at"; "from"; "area"]%string ->
             ~ (exists pre post, transcript = pre ++ str w ++ post)) ->
  location (extract_civic_info transcript) = str "Location not specified".
Proof.
  intros Habsent. unfold extract_civic_info. cbn [location].
  unfold location_patterns. cbn [first_location].
  rewrite !findall_absent; [done | | | |];
    apply Habsent; rewrite !elem_of_cons; tauto.
Qed.

Lemma location_needs_a_pattern_word_witness :
  location (extract_civic_info (str "POWER OUTAGE IN KADUNA, near the harbour"))
  = str "Location not specified".
Proof.
  apply location_needs_a_pattern_word.
  intros w Hw. rewrite <- py_in_spec.
  rewrite !elem_of_cons, elem_of_nil in Hw.
  destruct Hw as [-> | [-> | [-> | [-> | []]]]]; vm_compute; discriminate.
Defined.

(** X9. The location can be the empty string, neither a phrase nor the
    sentinel: when [in] is followed by two white-space characters and then
    by a character that is neither a letter nor white space, the pattern
    gives its second white-space character to the group, and trimming
    leaves nothing. *)
Theorem location_may_be_empty (w1 w2 c : N) (rest : list N) :
  is_space w1 = true -> is_space w2 = true -> letter_or_space c = false ->
  findall (word_then_phrase "in") (str "in" ++ [w1; w2] ++ c :: rest) !! O
  = Some [w2]
  /\ location (extract_civic_info (str "in" ++ [w1; w2] ++ c :: rest)) = [].
Proof.
  intros Hw1 Hw2 Hc.
  assert (Hc' : is_space c = false).
  { unfold letter_or_space in Hc. apply orb_false_iff in Hc as [_ Hc]. exact Hc. }
  assert (Hlos : letter_or_space w2 = true).
  { unfold letter_or_space. rewrite Hw2. apply orb_true_r. }
  assert (Hm : matcher (word_then_phrase "in") true
                 (str "in" ++ [w1; w2] ++ c :: rest) = Some ([w2], 4%nat)).
  { change (word_then_phrase "in")
      with [Once (N.eqb 105) false; Once (N.eqb 110) false;
            Plus is_space false; Plus letter_or_space true].
    change (str "in" ++ [w1; w2] ++ c :: rest)
      with (105 :: 110 :: w1 :: w2 :: c :: rest).
    rewrite !matcher_once_unfold.
    change (105 =? 105) with true. change (110 =? 110) with true. cbv iota.
    rewrite matcher_plus_unfold, Hw1, !more_of_cons, Hw2, Hc'.
    rewrite (matcher_plus_unfold _ _ _ _ (c :: rest)), Hc.
    rewrite matcher_plus_unfold, Hlos, more_of_cons, Hc.
    reflexivity. }
  assert (Hfind : findall (word_then_phrase "in") (str "in" ++ [w1; w2] ++ c :: rest) !! O
                  = Some [w2]).
  { unfold findall.
    change (str "in" ++ [w1; w2] ++ c :: rest)
      with (105 :: 110 :: w1 :: w2 :: c :: rest) in *.
    cbn [findall_from]. rewrite Hm. reflexivity. }
  split; [exact Hfind|].
  unfold extract_civic_info. cbn [location]. unfold location_patterns.
  cbn [first_location].
  destruct (findall (word_then_phrase "in") (str "in" ++ [w1; w2] ++ c :: rest))
    as [|g gs]; [done|].
  injection Hfind as ->. unfold py_strip. simpl lstrip. rewrite Hw2. reflexivity.
Qed.

Lemma location_may_be_empty_witness :
  location (extract_civic_info (str "in  , the dark")) = [].
Proof.
  apply (location_may_be_empty 32 32 44 (str " the dark")); reflexivity.
Defined.

(** ** The formatter: glyphs and the report identifier *)



Lemma identifier_char_elem (c x : N) :
  x ∈ identifier_char c -> x <> 58 /\ x <> 32 /\ (x = c \/ (x = 45 /\ c = 32)).
Proof.
  unfold identifier_char.
  destruct (N.eqb_spec c 45); [by intros ?%elem_of_nil|].
  destruct (N.eqb_spec c 58); [by intros ?%elem_of_nil|]. simpl.
  destruct (N.eqb_spec c 32) as [-> | ?]; intros ->%list_elem_of_singleton.
  - split_and!; [done | done | by right].
  - split_and!; [done | done | by left].
Qed.

Lemma identifier_char_length (c : N) : (length (identifier_char c) <= 1)%nat.
Proof.
  unfold identifier_char.
  destruct ((c =? 45) || (c =? 58)); [simpl; lia|].
  destruct (c =? 32); simpl; lia.
Qed.

(** X11. The report identifier holds neither a colon nor a space, is never
    longer than the timestamp, and each of its characters is a character of
    the timestamp or a hyphen that stands for one of its spaces. *)
Theorem report_identifier_alphabet (timestamp : list N) :
  let identifier := report_identifier timestamp in
  (58 ∉ identifier)
  /\ (32 ∉ identifier)
  /\ (length identifier <= length timestamp)%nat
  /\ (forall x, x ∈ identifier -> x ∈ timestamp \/ (x = 45 /\ 32 ∈ timestamp))
  /\ forall info call_metadata,
       exists pre,
         format_telegram_message info call_metadata timestamp
         = pre ++ str "*Report ID: CVC-" ++ identifier ++ str "*".
Proof.
  intros identifier. subst identifier. unfold report_identifier.
  rewrite replace_chain_eq.
  assert (Helem : forall x, x ∈ flat_map identifier_char timestamp ->
                            exists c, c ∈ timestamp /\ x ∈ identifier_char c).
  { intros x. induction timestamp as [|c rest IH]; simpl; [by intros ?%elem_of_nil|].
    rewrite elem_of_app. intros [H | H].
    - exists c. split; [apply list_elem_of_here | exact H].
    - destruct (IH H) as (c' & Hc' & Hx). exists c'.
      split; [by apply list_elem_of_further | exact Hx]. }
  split_and!.
  - intros H. destruct (Helem _ H) as (c & _ & Hx).
    apply identifier_char_elem in Hx as (? & _ & _). done.
  - intros H. destruct (Helem _ H) as (c & _ & Hx).
    apply identifier_char_elem in Hx as (_ & ? & _). done.
  - clear Helem. induction timestamp as [|c rest IH]; simpl; [lia|].
    rewrite length_app. pose proof (identifier_char_length c). lia.
  - intros x H. destruct (Helem _ H) as (c & Hc & Hx).
    apply identifier_char_elem in Hx as (_ & _ & [-> | [-> ->]]); [by left | by right].
  - intros info call_metadata.
    rewrite format_telegram_message_eq. unfold report_tail. rewrite replace_chain_eq.
    exists (report_head info timestamp
            ++ duration_field call_metadata ++ nl
            ++ caller_field call_metadata ++ nl ++ nl ++ str "---" ++ nl).
    rewrite <- !app_assoc. reflexivity.
Qed.

Lemma report_identifier_alphabet_witness :
  45 ∈ str "2024-01-15 10:30:00" \/ (45 = 45 /\ 32 ∈ str "2024-01-15 10:30:00").
Proof.
  destruct (report_identifier_alphabet (str "2024-01-15 10:30:00"))
    as (_ & _ & _ & Helem & _).
  apply Helem. apply (bool_decide_unpack _). vm_compute. exact I.
Defined.

(** ** The dispatcher: what one call does *)

(** X12. One call posts at most one request, and posts it exactly when
    both credentials are accepted; the request carries the message, the
    destination and the token in its address.  What was shown and posted
    before the call is kept, and at most one message is shown. *)
Theorem single_request (net : request -> outcome response)
    (message token chat_id : list N) (w : world) :
  let after := (send_to_telegram net message token chat_id w).2 in
  posted after
  = posted w
    ++ (if validate_telegram_token token && validate_chat_id chat_id
        then [ {| url := str "https://api.telegram.org/bot" ++ token
                         ++ str "/sendMessage";
                  json_chat_id := chat_id;
                  json_text := message;
                  json_parse_mode := str "Markdown";
                  timeout := 10 |} ]
        else [])
  /\ shown w `prefix_of` shown after
  /\ (length (shown after) <= S (length (shown w)))%nat.
Proof.
  intros after. subst after.
  destruct (validate_telegram_token token) eqn:Htoken;
    [destruct (validate_chat_id chat_id) eqn:Hchat|]; cbn [andb].
  - destruct (accepted_credentials_post net message token chat_id w Htoken Hchat)
      as (b & shown' & -> & Hnet). cbn [snd posted shown].
    split; [reflexivity|].
    assert (Hshown : shown' = shown w \/ exists m, shown' = shown w ++ [m]).
    { destruct (net (the_request message token chat_id)) as [r | [|details]].
      - destruct (status_code r =? 200)%Z; destruct Hnet as [_ ->]; eauto.
      - destruct Hnet as [_ ->]. eauto.
      - destruct Hnet as [_ ->]. eauto. }
    destruct Hshown as [-> | [m ->]].
    + split; [done | lia].
    + split; [by apply prefix_app_r | rewrite length_app; simpl; lia].
  - destruct (validation_precedes_network net message token chat_id w)
      as (m & -> & _); [by right|]. cbn [snd posted shown].
    rewrite app_nil_r.
    split_and!; [done | by apply prefix_app_r | rewrite length_app; simpl; lia].
  - destruct (validation_precedes_network net message token chat_id w)
      as (m & -> & _); [by left|]. cbn [snd posted shown].
    rewrite app_nil_r.
    split_and!; [done | by apply prefix_app_r | rewrite length_app; simpl; lia].
Qed.



(** X14. The call returns [True] exactly when both credentials are
    accepted and the provider answers the request with status 200; any
    other status, 201 or 204 included, gives [False]. *)
Theorem true_only_on_status_200 (net : request -> outcome response)
    (message token chat_id : list N) (w : world) :
  (send_to_telegram net message token chat_id w).1 = Return true
  <-> validate_telegram_token token = true
      /\ validate_chat_id chat_id = true
      /\ exists body,
           net {| url := str "https://api.telegram.org/bot" ++ token
                         ++ str "/sendMessage";
                  json_chat_id := chat_id;
                  json_text := message;
                  json_parse_mode := str "Markdown";
                  timeout := 10 |}
           = Return {| status_code := 200; text := body |}.
Proof.
  fold (the_request message token chat_id).
  destruct (validate_telegram_token token) eqn:Htoken;
    [destruct (validate_chat_id chat_id) eqn:Hchat|].
  - destruct (accepted_credentials_post net message token chat_id w Htoken Hchat)
      as (b & shown' & -> & Hnet). cbn [fst].
    destruct (net (the_request message token chat_id)) as [[status body] | [|details]].
    + cbn [status_code] in Hnet. destruct (Z.eqb_spec status 200) as [-> | Hne].
      * destruct Hnet as [-> _]. split; [eauto | done].
      * destruct Hnet as [-> _]. split; [done|].
        intros (_ & _ & body' & [= ? _]). done.
    + destruct Hnet as [-> _]. split; [done | by intros (_ & _ & ? & ?)].
    + destruct Hnet as [-> _]. split; [done | by intros (_ & _ & ? & ?)].
  - destruct (validation_precedes_network net message token chat_id w)
      as (m & -> & _); [by right|]. split; [done | by intros (_ & ? & _)].
  - destruct (validation_precedes_network net message token chat_id w)
      as (m & -> & _); [by left|]. split; [done | by intros (? & _)].
Qed.

(** The dispatcher always returns; when it returns [False] it has shown
    one more message. *)
Lemma send_to_telegram_returns net message token chat_id w :
  exists b w',
    send_to_telegram net message token chat_id w = (Return b, w')
    /\ (b = false -> exists m, shown w' = shown w ++ [m]).
Proof.
  destruct (validate_telegram_token token) eqn:Htoken;
    [destruct (validate_chat_id chat_id) eqn:Hchat|].
  - destruct (accepted_credentials_post net message token chat_id w Htoken Hchat)
      as (b & shown' & -> & Hnet).
    eexists _, _. split; [reflexivity|]. cbn [shown]. intros ->.
    destruct (net (the_request message token chat_id)) as [r | [|details]].
    + destruct (status_code r =? 200)%Z; destruct Hnet as [? ->]; [done | eauto].
    + destruct Hnet as [_ ->]. eauto.
    + destruct Hnet as [_ ->]. eauto.
  - destruct (validation_precedes_network net message token chat_id w)
      as (m & -> & _); [by right|]. eexists _, _. split; [reflexivity|]. eauto.
  - destruct (validation_precedes_network net message token chat_id w)
      as (m & -> & _); [by left|]. eexists _, _. split; [reflexivity|]. eauto.
Qed.

(** ** The call simulation tab *)

(** X15. When the transcript, the bot token or the channel identifier is
    empty, the button only shows the warning to fill in all fields:
    nothing is classified, validated, shown as an error or posted. *)
Theorem missing_field_sends_nothing (net : request -> outcome response)
    (timestamp transcript_input telegram_token telegram_channel : list N)
    (p : page) :
  transcript_input = [] \/ telegram_token = [] \/ telegram_channel = [] ->
  process_call_transcript net timestamp transcript_input telegram_token
    telegram_channel p
  = (Return tt,
     {| effects := effects p;
        rendered :=
          rendered p
          ++ [Warning (str "Please fill in all required fields (transcript, bot token, channel ID)")] |}).
Proof.
  intros H. unfold process_call_transcript.
  destruct transcript_input, telegram_token, telegram_channel;
    try reflexivity; destruct H as [? | [? | ?]]; done.
Qed.

Lemma missing_field_sends_nothing_witness :
  let p := {| effects := {| shown := []; posted := [] |}; rendered := [] |} in
  effects
    (process_call_transcript (fun _ => Raise Timeout) (str "2024-01-15 10:30:00")
       (str "Water supply has been cut off") [] (str "-100200300") p).2
  = {| shown := []; posted := [] |}.
Proof.
  intros p.
  rewrite (missing_field_sends_nothing (fun _ => Raise Timeout)
             (str "2024-01-15 10:30:00") (str "Water supply has been cut off") []
             (str "-100200300") p); [reflexivity|].
  right. left. reflexivity.
Defined.

(** X16. With the three fields filled in, the button never raises: it
    sends the message formatted from the classified transcript without
    call metadata, and shows the category, priority, location and message
    only when the dispatcher returns [True]; otherwise it shows the failure
    notice beside the one error message of the dispatcher. *)
Theorem simulated_call_outcome (net : request -> outcome response)
    (timestamp transcript_input telegram_token telegram_channel : list N)
    (p : page) :
  transcript_input <> [] -> telegram_token <> [] -> telegram_channel <> [] ->
  let civic_info := extract_civic_info transcript_input in
  let telegram_message := format_telegram_message civic_info None timestamp in
  exists success w,
    send_to_telegram net telegram_message telegram_token telegram_channel (effects p)
    = (Return success, w)
    /\ ((success = true
         /\ process_call_transcript net timestamp transcript_input telegram_token
              telegram_channel p
            = (Return tt,
               {| effects := w;
                  rendered :=
                    (rendered p ++ [Spinner (str "Processing civic report...")])
                    ++ [ Markdown status_success;
                         Subheader ([0x1F4CB] ++ str " Extracted Information:");
                         Metric (str "Category") (py_title (category civic_info));
                         Metric (str "Priority") (py_title (priority civic_info));
                         Metric (str "Location") (location civic_info);
                         TextArea (str "Generated Telegram Message:")
                                  telegram_message 200 ] |}))
        \/ (success = false
            /\ (exists m, shown w = shown (effects p) ++ [m])
            /\ process_call_transcript net timestamp transcript_input telegram_token
                 telegram_channel p
               = (Return tt,
                  {| effects := w;
                     rendered :=
                       (rendered p ++ [Spinner (str "Processing civic report...")])
                       ++ [Markdown status_error] |}))).
Proof.
  intros Ht Htoken Hchannel civic_info telegram_message.
  destruct (send_to_telegram_returns net telegram_message telegram_token
              telegram_channel (effects p)) as (success & w & Hsend & Hshown).
  exists success, w. split; [exact Hsend|].
  unfold process_call_transcript.
  destruct transcript_input as [|t0 t]; [done|].
  destruct telegram_token as [|k0 k]; [done|].
  destruct telegram_channel as [|c0 c]; [done|].
  cbn [nonempty andb]. cbv zeta. cbn [render effects rendered].
  fold civic_info. fold telegram_message. rewrite Hsend.
  destruct success.
  - left. split; reflexivity.
  - right. split_and!; [reflexivity | by apply Hshown | reflexivity].
Qed.

Lemma simulated_call_outcome_witness :
  let p := {| effects := {| shown := []; posted := [] |}; rendered := [] |} in
  (process_call_transcript (fun _ => Raise Timeout) (str "2024-01-15 10:30:00")
     (str "Water supply has been cut off") (str "123:AbC-1_2") (str "-100200300") p).1
  = Return tt.
Proof.
  intros p.
  destruct (simulated_call_outcome (fun _ => Raise Timeout) (str "2024-01-15 10:30:00")
              (str "Water supply has been cut off") (str "123:AbC-1_2")
              (str "-100200300") p)
    as (success & w & _ & [[_ ->] | (_ & _ & ->)]); done.
Defined.

(** X17. Of the four sample reports of the select box, the two about
    infrastructure and the one about security are classified under the
    category their label names, while the sample labelled [Waste
    Management] is classified as health, because its text mentions health
    and health is tested before waste; three of the four are urgent. *)
Theorem built_in_samples :
  map (fun sample =>
         let report := extract_civic_info sample.2 in
         (sample.1, category report, priority report, location report))
      sample_transcripts
  = [ (str "Infrastructure Issue", str "infrastructure", str "urgent",
       str "Kaduna Central");
      (str "Security Concern", str "security", str "medium",
       str "Barnawa Area Over The Past Week");
      (str "Waste Management", str "health", str "urgent",
       str "Location not specified");
      (str "Water Supply", str "infrastructure", str "urgent",
       str "Malali Area For Three Days Now") ].
Proof. vm_compute. reflexivity. Qed.
